(** * Folder forensics: the snapshot-and-diff engine of [app.py]

    A shallow embedding of the core functions of [app.py]
    ([human_readable_size], [timestamp], [get_file_info], [scan_folder],
    [safe_name_hash], [save_baseline_for], [compare]) and the properties
    the specification states about them.

    Modelling conventions.
    - A Python [str] is a Rocq [string], read as the UTF-8 bytes of the
      text.  Python orders strings by code point, and UTF-8 keeps that
      order, so [String.leb] is Python's [<=] on [str].
    - A Python [dict] is an insertion-ordered association list
      ([PyDict.dict]); a Python [set] is a [gset].
    - A call that can raise returns a [result]; exceptions are values of
      [exn].
    - The file system and the clock are explicit: a [World] answers
      [os.stat], [os.walk] and the local-time conversion, a [Disk] holds
      the files of the baseline directory. *)

From Stdlib Require Import ZArith Strings.String Strings.Ascii Lists.List.
From Stdlib Require Import Numbers.DecimalString.
From stdpp Require Import base decidable option list sorting gmap strings.

Open Scope string_scope.
Open Scope list_scope.

(* ================================================================== *)
(** * Part I: definitions *)
(* ================================================================== *)

(** ** Exceptions and results *)

(** The exceptions the core can see.  An [OSError] raised by the
    operating system carries its [errno]; Python picks the subclass from
    it ([ENOENT] gives [FileNotFoundError], [EACCES] gives
    [PermissionError]).  [FileNotFoundError msg] is the instance the
    program itself raises, which has no [errno]. *)
Inductive exn : Type :=
| OSError (errno : Z) (message : string)
| FileNotFoundError (message : string)
| ValueError (message : string)
| OverflowError (message : string)
| UnicodeEncodeError (message : string)
| KeyError (key : string).

Inductive result (A : Type) : Type :=
| Ok (a : A)
| Raise (e : exn).
Arguments Ok {A} a.
Arguments Raise {A} e.

#[global] Instance result_ret : MRet result := λ A a, Ok a.
#[global] Instance result_bind : MBind result :=
  λ A B f m, match m with Ok a => f a | Raise e => Raise e end.

(** [str(e)] *)
Definition exn_str (e : exn) : string :=
  match e with
  | OSError n msg => msg
  | FileNotFoundError msg => msg
  | ValueError msg => msg
  | OverflowError msg => msg
  | UnicodeEncodeError msg => msg
  | KeyError k => "'" +:+ k +:+ "'"
  end.

(** ** Python dictionaries *)

Module PyDict.

(** An insertion-ordered dictionary with [str] keys. *)
Definition dict (V : Type) : Type := list (string * V).

Definition empty {V} : dict V := [].

(** [d.keys()], in insertion order *)
Definition keys {V} (d : dict V) : list string := d.*1.

(** [d.get(k)] *)
Fixpoint get {V} (d : dict V) (k : string) : option V :=
  match d with
  | [] => None
  | (k', v) :: d' => if decide (k' = k) then Some v else get d' k
  end.

(** [d[k]]: raises [KeyError] on a missing key *)
Definition getitem {V} (d : dict V) (k : string) : result V :=
  match get d k with
  | Some v => Ok v
  | None => Raise (KeyError k)
  end.

(** [d[k] = v]: a key already present keeps its place *)
Fixpoint setitem {V} (d : dict V) (k : string) (v : V) : dict V :=
  match d with
  | [] => [(k, v)]
  | (k', v') :: d' =>
      if decide (k' = k) then (k', v) :: d' else (k', v') :: setitem d' k v
  end.

End PyDict.

Import PyDict.

(** ** The data model *)

(** The record [get_file_info] builds.  [None] is Python's [None];
    [error] is [None] when the key is absent, which is what
    [r.get("error")] gives. *)
Record FileRecord : Type := mkFileRecord {
  name : string;
  relpath : string;
  size : option string;
  created : option string;
  modified : option string;
  accessed : option string;
  is_file : bool;
  error : option string
}.

#[global] Instance FileRecord_eq_dec : EqDecision FileRecord.
Proof. solve_decision. Defined.

(** The dictionary [compare] returns. *)
Record DiffResult : Type := mkDiffResult {
  added : list string;
  deleted : list string;
  changed : list string;
  unchanged : list string
}.

(** ** Numbers: [human_readable_size] *)

(** [a / d] rounded to the nearest integer, ties to the even one
    ([0 <= a], [0 < d]). *)
Definition round_half_even_div (a d : Z) : Z :=
  let q := (a / d)%Z in
  let r := (a mod d)%Z in
  if (2 * r <? d)%Z then q
  else if (d <? 2 * r)%Z then (q + 1)%Z
  else if Z.even q then q else (q + 1)%Z.

(** The integer [n] rounded to 53 significant bits, ties to even: the
    double nearest to [n].  Integers below [2^53] are doubles. *)
Definition round53 (n : Z) : Z :=
  let a := Z.abs n in
  let bits := (Z.log2 a + 1)%Z in
  if (bits <=? 53)%Z then n
  else let ulp := (2 ^ (bits - 53))%Z in
       (Z.sgn n * (round_half_even_div a ulp * ulp))%Z.

(** The value [size_in_bytes] holds while the loop runs: the [int] it
    starts as, then, after [/= 1024], a [float].  [PyFloat m e] is the
    double [m / 2^e]; every float that arises here has this form, with
    [m] a double itself. *)
Inductive number : Type :=
| PyInt (n : Z)
| PyFloat (m : Z) (e : Z).

(** A double is finite: below [2^1024] in absolute value. *)
Definition too_large_for_float (m e : Z) : bool :=
  (2 ^ 1024 * 2 ^ e <=? Z.abs m)%Z.

(** [x < 1024] *)
Definition lt_1024 (x : number) : bool :=
  match x with
  | PyInt n => (n <? 1024)%Z
  | PyFloat m e => (m <? 1024 * 2 ^ e)%Z
  end.

(** [x / 1024].  For an [int] the quotient is rounded correctly, and
    raises [OverflowError] when it is too large for a double; for a
    double of the sizes met here it is exact. *)
Definition truediv_1024 (x : number) : result number :=
  match x with
  | PyInt n =>
      if too_large_for_float (round53 n) 10
      then Raise (OverflowError "integer division result too large for a float")
      else Ok (PyFloat (round53 n) 10)
  | PyFloat m e => Ok (PyFloat m (e + 10))
  end.

(** A natural number in decimal. *)
Definition decimal (n : Z) : string :=
  NilEmpty.string_of_uint (N.to_uint (Z.to_N n)).

(** [h] hundredths written with two decimal places: [12345] is
    ["123.45"]. *)
Definition two_decimals (h : Z) : string :=
  decimal (h / 100) +:+ "." +:+
  decimal ((h mod 100) / 10) +:+ decimal (h mod 10).

(** [f"{m / 2^e:.2f}"]: the double, rounded to the nearest hundredth
    (ties to even), with its sign. *)
Definition format_2f_float (m e : Z) : string :=
  (if (m <? 0)%Z then "-" else "") +:+
  two_decimals (round_half_even_div (100 * Z.abs m) (2 ^ e)).

(** [f"{x:.2f}"]; an [int] is converted to a double first, which raises
    [OverflowError] when it is too large. *)
Definition format_2f (x : number) : result string :=
  match x with
  | PyInt n =>
      if too_large_for_float (round53 n) 0
      then Raise (OverflowError "int too large to convert to float")
      else Ok (format_2f_float (round53 n) 0)
  | PyFloat m e => Ok (format_2f_float m e)
  end.

(** The loop [for unit in ...] and the [return] after it. *)
Fixpoint size_loop (units : list string) (x : number) : result string :=
  match units with
  | [] => s ← format_2f x; Ok (s +:+ " PB")
  | unit :: rest =>
      if lt_1024 x
      then s ← format_2f x; Ok (s +:+ " " +:+ unit)
      else x' ← truediv_1024 x; size_loop rest x'
  end.

Definition human_readable_size (size_in_bytes : option Z)
    : result (option string) :=
  match size_in_bytes with
  | None => Ok None
  | Some n => s ← size_loop ["B"; "KB"; "MB"; "GB"; "TB"] (PyInt n); Ok (Some s)
  end.

#[global] Arguments human_readable_size : simpl never.

(** The units, smallest first. *)
Definition unit_names : list string := ["B"; "KB"; "MB"; "GB"; "TB"; "PB"].

(** [h] hundredths is a nearest hundredth to [v / d]. *)
Definition nearest_hundredth (h v d : Z) : Prop :=
  (2 * Z.abs (100 * v - h * d) <= d)%Z.

(** ** Paths: [pathlib] and [os.path] on POSIX *)

Module Pathlib.

(** [s.split("/")] *)
Fixpoint split_slash (s : string) : list string :=
  match s with
  | EmptyString => [""]
  | String c s' =>
      if decide (c = "/"%char) then "" :: split_slash s'
      else match split_slash s' with
           | [] => [String c ""]
           | h :: t => String c h :: t
           end
  end.

(** A path as [pathlib] keeps it: the root ([""], ["/"] or ["//"]) and
    the parts after it. *)
Record Path : Type := mkPath {
  anchor : string;
  parts : list string
}.

(** The root [posixpath.splitroot] finds: one slash, or two when there
    are exactly two. *)
Definition splitroot (s : string) : string :=
  match s with
  | String "/" (String "/" (String "/" _)) => "/"
  | String "/" (String "/" _) => "//"
  | String "/" _ => "/"
  | _ => ""
  end.

(** What parsing keeps of the components: not the empty ones, not
    ["."]. *)
Definition is_part (x : string) : Prop := x ≠ "" ∧ x ≠ ".".

#[global] Instance is_part_dec x : Decision (is_part x).
Proof. unfold is_part. apply _. Defined.

(** [Path(s)] *)
Definition of_str (s : string) : Path :=
  {| anchor := splitroot s; parts := filter is_part (split_slash s) |}.

(** [str(p)] *)
Definition str (p : Path) : string :=
  match parts p with
  | [] => if decide (anchor p = "") then "." else anchor p
  | ps => anchor p +:+ String.concat "/" ps
  end.

(** [p.name] *)
Definition name (p : Path) : string := List.last (parts p) "".

(** [s.endswith("/")] *)
Fixpoint endswith_slash (s : string) : bool :=
  match s with
  | EmptyString => false
  | String c EmptyString => bool_decide (c = "/"%char)
  | String _ s' => endswith_slash s'
  end.

(** [os.path.join(a, b)] *)
Definition os_path_join (a b : string) : string :=
  if String.prefix "/" b then b
  else if bool_decide (a = "") || endswith_slash a then a +:+ b
  else a +:+ "/" +:+ b.

(** [Path(a) / b] for strings [a] and [b]: [pathlib] joins the two
    strings and parses the result. *)
Definition joinpath (a b : string) : Path := of_str (os_path_join a b).

(** A string with a slash in it. *)
Fixpoint has_slash (s : string) : bool :=
  match s with
  | EmptyString => false
  | String c s' => bool_decide (c = "/"%char) || has_slash s'
  end.

(** The name of a directory entry: not empty, not ["."], no slash. *)
Definition plain_name (s : string) : Prop :=
  is_part s ∧ has_slash s = false.

#[global] Instance plain_name_dec s : Decision (plain_name s).
Proof. unfold plain_name. apply _. Defined.

(** The paths parsing produces. *)
Definition normal (p : Path) : Prop := Forall plain_name (parts p).

End Pathlib.

(** ** The world: the file system and the clock *)

(** An instant as [os.stat] reports it ([st_mtime] and the like).  The
    program only hands it to [datetime.fromtimestamp]. *)
Definition instant : Type := Z.

Record stat_result : Type := mkStat {
  st_mode : Z;
  st_size : Z;
  st_atime : instant;
  st_mtime : instant;
  st_ctime : instant
}.

Record datetime : Type := mkDatetime {
  year : Z; month : Z; day : Z; hour : Z; minute : Z; second : Z
}.

(** What [os.stat] can raise: an [OSError] with its [errno], or a
    [ValueError] for a path the system cannot take (a null byte). *)
Inductive stat_error : Type :=
| StatOSError (errno : Z) (message : string)
| StatValueError (message : string).

Definition exn_of_stat_error (e : stat_error) : exn :=
  match e with
  | StatOSError n msg => OSError n msg
  | StatValueError msg => ValueError msg
  end.

(** What the program asks of its surroundings.  The world stands still
    while a function runs: asked twice, it answers the same.
    - [os_stat path] is [os.stat(path)]: the attributes, or the error.
    - [os_walk top] is everything [os.walk(top)] yields: for each
      directory it visits, its path, its subdirectories and the names of
      its other entries.  A directory it cannot list yields nothing.
    - [fromtimestamp ts] is [datetime.fromtimestamp(ts)], in the local
      time zone; [None] when it raises. *)
Record World : Type := mkWorld {
  os_stat : string → stat_error + stat_result;
  os_walk : string → list (string * list string * list string);
  fromtimestamp : instant → option datetime
}.

Definition ENOENT : Z := 2.
Definition EBADF : Z := 9.
Definition EACCES : Z := 13.
Definition ENOTDIR : Z := 20.
Definition ELOOP : Z := 40.


(** [stat.S_ISREG(mode)] *)
Definition S_ISREG (mode : Z) : bool :=
  bool_decide (Z.land mode 61440 = 32768)%Z.

(** [pathlib._ignore_error]: the errors [exists] and [is_file] read as
    "no such file". *)
Definition ignore_error (e : exn) : bool :=
  match e with
  | OSError n _ => bool_decide (n ∈ [ENOENT; ENOTDIR; EBADF; ELOOP])
  | _ => false
  end.

(** [path.stat()] *)
Definition Path_stat (w : World) (path : Pathlib.Path) : result stat_result :=
  match os_stat w (Pathlib.str path) with
  | inr s => Ok s
  | inl e => Raise (exn_of_stat_error e)
  end.

(** [path.exists()], as [pathlib] defines it up to Python 3.13: [False]
    for the errors of [ignore_error] and for a [ValueError], every other
    error is raised again. *)
Definition Path_exists (w : World) (path : Pathlib.Path) : result bool :=
  match Path_stat w path with
  | Ok _ => Ok true
  | Raise (ValueError _) => Ok false
  | Raise e => if ignore_error e then Ok false else Raise e
  end.

(** [path.is_file()], likewise. *)
Definition Path_is_file (w : World) (path : Pathlib.Path) : result bool :=
  match Path_stat w path with
  | Ok s => Ok (S_ISREG (st_mode s))
  | Raise (ValueError _) => Ok false
  | Raise e => if ignore_error e then Ok false else Raise e
  end.

(** The names [os.walk top] reports for files are names of directory
    entries. *)
Definition walk_names_plain (w : World) (top : string) : Prop :=
  Forall (λ entry, Forall Pathlib.plain_name entry.2) (os_walk w top).

#[global] Instance walk_names_plain_dec w top :
  Decision (walk_names_plain w top).
Proof. unfold walk_names_plain. apply _. Defined.

(** [os.walk top] reports the file [fname] in the directory [root]. *)
Definition encountered (w : World) (top root fname : string) : Prop :=
  ∃ dirs files, (root, dirs, files) ∈ os_walk w top ∧ fname ∈ files.

(** The key [scan_folder] stores that file under: [str(Path(root) / fname)]. *)
Definition scan_key (root fname : string) : string :=
  Pathlib.str (Pathlib.joinpath root fname).

(** [fname.startswith("~$")] *)
Definition is_lock_file (fname : string) : bool := String.prefix "~$" fname.

(** ** [timestamp] *)

(** [n] in decimal, with zeros in front up to [width] digits. *)
Definition zero_pad (width : nat) (n : Z) : string :=
  let d := decimal n in
  String.concat "" (replicate (width - String.length d) "0") +:+ d.

(** [dt.strftime("%Y-%m-%d %H:%M:%S")].  The year is written as the C
    library writes [%Y]: in full, with no zeros in front of a year below
    1000 (glibc). *)
Definition strftime (dt : datetime) : string :=
  decimal (year dt) +:+ "-" +:+ zero_pad 2 (month dt) +:+ "-" +:+
  zero_pad 2 (day dt) +:+ " " +:+ zero_pad 2 (hour dt) +:+ ":" +:+
  zero_pad 2 (minute dt) +:+ ":" +:+ zero_pad 2 (second dt).

Definition timestamp (w : World) (ts : instant) : string :=
  match fromtimestamp w ts with
  | Some dt => strftime dt
  | None => ""
  end.

(** ** [get_file_info] *)

Definition get_file_info (w : World) (path : Pathlib.Path)
    : result FileRecord :=
  let try_block : result FileRecord :=
    s ← Path_stat w path;
    sz ← human_readable_size (Some (st_size s));
    isf ← Path_is_file w path;
    Ok {| name := Pathlib.name path;
          relpath := Pathlib.str path;
          size := sz;
          created := Some (timestamp w (st_ctime s));
          modified := Some (timestamp w (st_mtime s));
          accessed := Some (timestamp w (st_atime s));
          is_file := isf;
          error := None |} in
  match try_block with
  | Ok info => Ok info
  | Raise e =>
      isf ← Path_is_file w path;
      Ok {| name := Pathlib.name path;
            relpath := Pathlib.str path;
            size := None;
            created := None;
            modified := None;
            accessed := None;
            is_file := isf;
            error := Some (exn_str e) |}
  end.

(** ** [scan_folder] *)

(** The inner loop [for fname in files]. *)
Fixpoint scan_files (w : World) (root : string) (files : list string)
    (results : dict FileRecord) : result (dict FileRecord) :=
  match files with
  | [] => Ok results
  | fname :: rest =>
      if is_lock_file fname then scan_files w root rest results
      else
        let fpath := Pathlib.joinpath root fname in
        info ← get_file_info w fpath;
        scan_files w root rest (setitem results (Pathlib.str fpath) info)
  end.

(** The outer loop [for root, dirs, files in os.walk(p)]. *)
Fixpoint scan_walk (w : World)
    (walk : list (string * list string * list string))
    (results : dict FileRecord) : result (dict FileRecord) :=
  match walk with
  | [] => Ok results
  | (root, dirs, files) :: rest =>
      results' ← scan_files w root files results;
      scan_walk w rest results'
  end.

Definition scan_folder (w : World) (folder_path : string)
    : result (dict FileRecord) :=
  let p := Pathlib.of_str folder_path in
  found ← Path_exists w p;
  if negb found
  then Raise (FileNotFoundError ("Path not found: " +:+ folder_path))
  else scan_walk w (os_walk w (Pathlib.str p)) empty.

(** ** [safe_name_hash]: SHA-1 *)

Module SHA1.

Definition mask32 (x : Z) : Z := Z.land x 4294967295.

Definition add32 (x y : Z) : Z := mask32 (x + y).

(** Rotate a 32-bit word left by [n] bits. *)
Definition rotl (n x : Z) : Z :=
  mask32 (Z.lor (Z.shiftl x n) (Z.shiftr x (32 - n))).

Definition bytes_of_string (s : string) : list Z :=
  (λ c, Z.of_N (N_of_ascii c)) <$> list_ascii_of_string s.

(** The [n] low bytes of [x], most significant first. *)
Fixpoint be_bytes (n : nat) (x : Z) : list Z :=
  match n with
  | O => []
  | S n' => be_bytes n' (Z.shiftr x 8) ++ [Z.land x 255]
  end.

(** The message, a one bit, zeros up to 56 modulo 64 bytes, and the
    length in bits as 8 bytes. *)
Definition pad (msg : list Z) : list Z :=
  let len := Z.of_nat (length msg) in
  msg ++ [128%Z] ++ replicate (Z.to_nat ((55 - len) mod 64)) 0%Z ++
  be_bytes 8 (8 * len).

(** [n] blocks of 64 bytes. *)
Fixpoint blocks (n : nat) (l : list Z) : list (list Z) :=
  match n with
  | O => []
  | S n' => take 64 l :: blocks n' (drop 64 l)
  end.

(** [n] big-endian words of 4 bytes. *)
Fixpoint words (n : nat) (l : list Z) : list Z :=
  match n, l with
  | S n', b0 :: b1 :: b2 :: b3 :: l' =>
      (b0 * 16777216 + b1 * 65536 + b2 * 256 + b3)%Z :: words n' l'
  | _, _ => []
  end.

(** The message schedule, latest word first: [n] more words, each from
    the words 3, 8, 14 and 16 places back. *)
Fixpoint extend (n : nat) (rev_w : list Z) : list Z :=
  match n with
  | O => rev_w
  | S n' =>
      let x := Z.lxor (Z.lxor (nth 2 rev_w 0%Z) (nth 7 rev_w 0%Z))
                      (Z.lxor (nth 13 rev_w 0%Z) (nth 15 rev_w 0%Z)) in
      extend n' (rotl 1 x :: rev_w)
  end.

Definition schedule (block : list Z) : list Z :=
  rev (extend 64 (rev (words 16 block))).

Definition state : Type := Z * Z * Z * Z * Z.

Definition round (t : nat) (st : state) (wt : Z) : state :=
  let '(a, b, c, d, e) := st in
  let '(f, k) :=
    if (t <? 20)%nat
    then (Z.lor (Z.land b c) (Z.land (Z.lxor b 4294967295) d), 1518500249%Z)
    else if (t <? 40)%nat
    then (Z.lxor (Z.lxor b c) d, 1859775393%Z)
    else if (t <? 60)%nat
    then (Z.lor (Z.lor (Z.land b c) (Z.land b d)) (Z.land c d), 2400959708%Z)
    else (Z.lxor (Z.lxor b c) d, 3395469782%Z) in
  (add32 (add32 (add32 (add32 (rotl 5 a) f) e) k) wt, a, rotl 30 b, c, d).

Fixpoint rounds (t : nat) (ws : list Z) (st : state) : state :=
  match ws with
  | [] => st
  | wt :: ws' => rounds (S t) ws' (round t st wt)
  end.

Definition process (st : state) (block : list Z) : state :=
  let '(h0, h1, h2, h3, h4) := st in
  let '(a, b, c, d, e) := rounds 0 (schedule block) st in
  (add32 h0 a, add32 h1 b, add32 h2 c, add32 h3 d, add32 h4 e).

Definition initial : state :=
  (1732584193, 4023233417, 2562383102, 271733878, 3285377520)%Z.

Definition digest (msg : list Z) : state :=
  let padded := pad msg in
  fold_left process (blocks (length padded / 64) padded) initial.

Definition hex_digit (d : Z) : ascii :=
  nth (Z.to_nat d) (list_ascii_of_string "0123456789abcdef") "0"%char.

(** A 32-bit word as 8 hexadecimal digits. *)
Definition hex_word (x : Z) : string :=
  string_of_list_ascii
    ((λ i, hex_digit (Z.land (Z.shiftr x (4 * Z.of_nat i)) 15))
       <$> [7; 6; 5; 4; 3; 2; 1; 0]%nat).

(** [hashlib.sha1(s.encode("utf-8")).hexdigest()] *)
Definition hexdigest (s : string) : string :=
  let '(h0, h1, h2, h3, h4) := digest (bytes_of_string s) in
  hex_word h0 +:+ hex_word h1 +:+ hex_word h2 +:+ hex_word h3 +:+ hex_word h4.

End SHA1.

Definition safe_name_hash (path_str : string) : string :=
  SHA1.hexdigest path_str.

(** ** JSON as [json.dump(..., indent=2, ensure_ascii=False)] writes it *)

Module Json.

#[local] Unset Elimination Schemes.
Inductive value : Type :=
| Null
| Bool (b : bool)
| Str (s : string)
| Obj (fields : list (string * value)).
#[local] Set Elimination Schemes.

Definition quote : string := String "034"%char "".
Definition backslash : ascii := "\"%char.
Definition newline : string := String "010"%char "".

Definition hex2 (n : N) : string :=
  String (SHA1.hex_digit (Z.of_N (n / 16))) (String (SHA1.hex_digit (Z.of_N (n mod 16))) "").

(** What stands for one character inside a JSON string. *)
Definition escape_char (c : ascii) : string :=
  let n := N_of_ascii c in
  if decide (c = "034"%char) then String backslash quote
  else if decide (c = backslash) then String backslash (String backslash "")
  else if decide (n = 8%N) then "\b"
  else if decide (n = 9%N) then "\t"
  else if decide (n = 10%N) then "\n"
  else if decide (n = 12%N) then "\f"
  else if decide (n = 13%N) then "\r"
  else if decide (n < 32)%N then "\u00" +:+ hex2 n
  else String c "".

Fixpoint escape (s : string) : string :=
  match s with
  | EmptyString => ""
  | String c s' => escape_char c +:+ escape s'
  end.

Definition encode_str (s : string) : string := quote +:+ escape s +:+ quote.

Definition spaces (n : nat) : string := String.concat "" (replicate n " ").

(** The text of a value that starts at indentation [level]. *)
Fixpoint encode (level : nat) (v : value) : string :=
  match v with
  | Null => "null"
  | Bool true => "true"
  | Bool false => "false"
  | Str s => encode_str s
  | Obj [] => "{}"
  | Obj fields =>
      let inner := newline +:+ spaces (level + 2) in
      "{" +:+ inner +:+
      String.concat ("," +:+ inner)
        (map (λ kv, encode_str kv.1 +:+ ": " +:+ encode (level + 2) kv.2)
             fields) +:+
      newline +:+ spaces level +:+ "}"
  end.

(** [json.dumps(v, indent=2, ensure_ascii=False)] *)
Definition dumps (v : value) : string := encode 0 v.

Definition of_option (o : option string) : value :=
  match o with
  | Some s => Str s
  | None => Null
  end.

End Json.

(** The dictionary [get_file_info] builds, as JSON: its keys in the
    order they were given, [error] only when it is there. *)
Definition FileRecord_to_json (r : FileRecord) : Json.value :=
  Json.Obj
    ([("name", Json.Str (name r));
      ("relpath", Json.Str (relpath r));
      ("size", Json.of_option (size r));
      ("created", Json.of_option (created r));
      ("modified", Json.of_option (modified r));
      ("accessed", Json.of_option (accessed r));
      ("is_file", Json.Bool (is_file r))] ++
     match error r with
     | Some e => [("error", Json.Str e)]
     | None => []
     end).

(** ** The baseline store: [save_baseline_for] *)

(** The files on disk, by path, with their text. *)
Abbreviation Disk := (gmap string string).

Definition BASE_DIR : string := ".folder_forensics_baselines".

(** [BASE_DIR / f"{key}.json"], as text *)
Definition baseline_file (path_str : string) : string :=
  BASE_DIR +:+ "/" +:+ safe_name_hash path_str +:+ ".json".

(** What the system does to one save.  [WriteFails n e]: the file was
    opened, and after [n] characters of the text had reached it a write
    raised [e]. *)
Inductive io_outcome : Type :=
| AllWritten
| OpenFails (e : exn)
| WriteFails (written : nat) (e : exn).

(** An action on the disk that may raise. *)
Definition IO (A : Type) : Type := Disk → result A * Disk.

Definition io_ret {A} (a : A) : IO A := λ disk, (Ok a, disk).

Definition io_bind {A B} (m : IO A) (k : A → IO B) : IO B :=
  λ disk, match m disk with
          | (Ok a, disk') => k a disk'
          | (Raise e, disk') => (Raise e, disk')
          end.

Notation "x ←io m ; k" := (io_bind m (λ x, k))
  (at level 20, m at level 100, k at level 200, only parsing).

(** [open(fp, "w", encoding="utf-8")]: the file is created, or emptied
    if it is there, unless opening fails. *)
Definition open_w (io : io_outcome) (fp : string) : IO string :=
  λ disk, match io with
          | OpenFails e => (Raise e, disk)
          | _ => (Ok fp, <[fp := ""]> disk)
          end.

(** Writing [text] to the open file [f]: all of it, or its first
    characters before the error. *)
Definition write (io : io_outcome) (f : string) (text : string) : IO unit :=
  λ disk,
    let before := default "" (disk !! f) in
    match io with
    | WriteFails n e =>
        (Raise e, <[f := before +:+ String.substring 0 n text]> disk)
    | _ => (Ok tt, <[f := before +:+ text]> disk)
    end.

(** The record [save_baseline_for] serializes. *)
Definition baseline_json (path_str now : string) (data : dict FileRecord)
    : Json.value :=
  Json.Obj
    [("folder", Json.Str path_str);
     ("created_at", Json.Str now);
     ("files", Json.Obj (map (λ kv, (kv.1, FileRecord_to_json kv.2)) data))].

(** [now] is [datetime.now().isoformat()]. *)
Definition save_baseline_for (io : io_outcome) (now : string)
    (path_str : string) (data : dict FileRecord) : IO string :=
  let key := safe_name_hash path_str in
  let fp := BASE_DIR +:+ "/" +:+ key +:+ ".json" in
  f ←io open_w io fp;
  _ ←io write io f (Json.dumps (baseline_json path_str now data));
  io_ret fp.

(** ** [compare] *)

(** Python's [<=] on [str]. *)
Definition str_le (a b : string) : Prop := Is_true (String.leb a b).

#[global] Instance str_le_dec : RelDecision str_le.
Proof. intros a b. unfold str_le. apply _. Defined.

(** [sorted(l)] for a list of strings.  The order is total and
    antisymmetric, so every correct sort returns this list. *)
Definition sorted (l : list string) : list string := merge_sort str_le l.

(** [set(d.keys())] *)
Definition key_set {V} (d : dict V) : gset string := list_to_set (keys d).

(** The test of the loop body:
    [(o.get("size") != n.get("size")) or (o.get("modified") != n.get("modified"))] *)
Definition differs (o n : FileRecord) : bool :=
  bool_decide (size o ≠ size n) || bool_decide (modified o ≠ modified n).

(** The loop [for p in common], with the two lists it appends to. *)
Fixpoint compare_loop (old new : dict FileRecord) (common : list string)
    (changed unchanged : list string) : result (list string * list string) :=
  match common with
  | [] => Ok (changed, unchanged)
  | p :: rest =>
      o ← getitem old p;
      n ← getitem new p;
      if differs o n
      then compare_loop old new rest (changed ++ [p]) unchanged
      else compare_loop old new rest changed (unchanged ++ [p])
  end.

Definition compare (old new : dict FileRecord) : result DiffResult :=
  let old_set := key_set old in
  let new_set := key_set new in
  let added := sorted (elements (new_set ∖ old_set)) in
  let deleted := sorted (elements (old_set ∖ new_set)) in
  let common := sorted (elements (old_set ∩ new_set)) in
  '(changed, unchanged) ← compare_loop old new common [] [];
  Ok {| added := added; deleted := deleted;
        changed := changed; unchanged := unchanged |}.

(** What the loop of [compare] decides for a path [p] of both
    dictionaries: [true] when the two records differ in [size] or in
    [modified]. *)
Definition changed_in (old new : dict FileRecord) (p : string) : bool :=
  match get old p, get new p with
  | Some o, Some n => differs o n
  | _, _ => false
  end.

(** The sorted list of the paths of both dictionaries. *)
Definition common_paths (old new : dict FileRecord) : list string :=
  sorted (elements (key_set old ∩ key_set new)).

(** The four lists of a result share no path. *)
Definition pairwise_disjoint (r : DiffResult) : Prop :=
  added r ## deleted r ∧ added r ## changed r ∧ added r ## unchanged r ∧
  deleted r ## changed r ∧ deleted r ## unchanged r ∧
  changed r ## unchanged r.

(** The paths of a result, as a set. *)
Definition result_paths (r : DiffResult) : gset string :=
  list_to_set (added r) ∪ list_to_set (deleted r) ∪
  list_to_set (changed r) ∪ list_to_set (unchanged r).

(** Key and record agree: the record's [relpath] is its key, and its
    [name] is the name of the path the key spells. *)
Definition key_consistent (d : dict FileRecord) : Prop :=
  ∀ k r, get d k = Some r →
    relpath r = k ∧ name r = Pathlib.name (Pathlib.of_str k).

(** The record [get_file_info] returns for a path whose [stat] raised
    [e]. *)
Definition error_record (path : Pathlib.Path) (e : exn) : FileRecord :=
  {| name := Pathlib.name path;
     relpath := Pathlib.str path;
     size := None; created := None; modified := None; accessed := None;
     is_file := false;
     error := Some (exn_str e) |}.

(** A record of a failed [stat]: [error] is set, and with it [size] and
    [modified] are absent (the data model's invariant). *)
Definition stat_failed (r : FileRecord) : Prop :=
  is_Some (error r) ∧ size r = None ∧ modified r = None.

(** A record of a successful [stat]: no [error], and a [size]. *)
Definition stat_ok (r : FileRecord) : Prop :=
  error r = None ∧ is_Some (size r).

(** What [compare] reads of a dictionary at a path: whether the path is
    a key, and the [size] and [modified] of its record. *)
Definition diff_view (d : dict FileRecord) (p : string)
    : option (option string * option string) :=
  (λ r, (size r, modified r)) <$> get d p.

(** A result with [added] and [deleted] exchanged. *)
Definition swap_result (r : DiffResult) : DiffResult :=
  {| added := deleted r; deleted := added r;
     changed := changed r; unchanged := unchanged r |}.

(** A digit of lower-case hexadecimal. *)
Definition is_hex_digit (c : ascii) : Prop :=
  c ∈ list_ascii_of_string "0123456789abcdef".

(** A record as [get_file_info] builds it: with the attributes and no
    [error], or with an [error] and no attribute. *)
Definition complete_record (r : FileRecord) : Prop :=
  error r = None ∧ is_Some (size r) ∧ is_Some (created r) ∧
  is_Some (modified r) ∧ is_Some (accessed r).

Definition failure_record (r : FileRecord) : Prop :=
  is_Some (error r) ∧ size r = None ∧ created r = None ∧
  modified r = None ∧ accessed r = None.

(** The errnos [exists] and [is_file] read as "no such file". *)
Definition ignored_errnos : list Z := [ENOENT; ENOTDIR; EBADF; ELOOP].


(** Every record is what [get_file_info] reports for the path its key
    spells. *)
Definition records_of (w : World) (d : dict FileRecord) : Prop :=
  ∀ k r, get d k = Some r → get_file_info w (Pathlib.of_str k) = Ok r.

(** A date and time of the calendar, with a year of four digits (which
    [%Y] writes as it is). *)
Definition valid_datetime (dt : datetime) : Prop :=
  (1000 <= year dt <= 9999)%Z ∧ (1 <= month dt <= 12)%Z ∧
  (1 <= day dt <= 31)%Z ∧ (0 <= hour dt <= 23)%Z ∧
  (0 <= minute dt <= 59)%Z ∧ (0 <= second dt <= 59)%Z.

(** The character of a decimal digit. *)
Definition digit (k : Z) : ascii := ascii_of_nat (48 + Z.to_nat k).

(** ** JSON as [json.load] reads it *)

Module JsonDecoder.

(** What the decoder makes of a text: the value [Got]; a
    [JSONDecodeError] ([Malformed]); or [Unmodelled], for the texts with
    a number, an array, [NaN] or an infinity, a [\u] escape beyond
    ASCII, or objects nested deeper than [max_depth], of which this
    model says nothing. *)
Inductive outcome (A : Type) : Type :=
| Got (a : A)
| Malformed
| Unmodelled.
#[global] Arguments Got {A} a.
#[global] Arguments Malformed {A}.
#[global] Arguments Unmodelled {A}.

Definition bind {A B} (m : outcome A) (k : A → outcome B) : outcome B :=
  match m with
  | Got a => k a
  | Malformed => Malformed
  | Unmodelled => Unmodelled
  end.

(** The decoder's whitespace: space, tab, line feed, carriage return. *)
Definition is_whitespace (c : ascii) : bool :=
  bool_decide (c ∈ [" "; "009"; "010"; "013"]%char).

Fixpoint skip_whitespace (s : string) : string :=
  match s with
  | String c s' => if is_whitespace c then skip_whitespace s' else s
  | EmptyString => ""
  end.

Definition hex_value (c : ascii) : option N :=
  let n := N_of_ascii c in
  if (48 <=? n)%N && (n <=? 57)%N then Some (n - 48)%N
  else if (97 <=? n)%N && (n <=? 102)%N then Some (n - 87)%N
  else if (65 <=? n)%N && (n <=? 70)%N then Some (n - 55)%N
  else None.

(** The character [\uXXXX] stands for, when it is an ASCII one. *)
Definition unicode_escape (h1 h2 h3 h4 : ascii) : outcome ascii :=
  match hex_value h1, hex_value h2, hex_value h3, hex_value h4 with
  | Some a, Some b, Some c, Some d =>
      let n := (((a * 16 + b) * 16 + c) * 16 + d)%N in
      if (n <? 128)%N then Got (ascii_of_N n) else Unmodelled
  | _, _, _, _ => Malformed
  end.

(** The character a backslash and [e] stand for. *)
Definition simple_escape (e : ascii) : option ascii :=
  if decide (e = "034"%char) then Some "034"%char
  else if decide (e = Json.backslash) then Some Json.backslash
  else if decide (e = "/"%char) then Some "/"%char
  else if decide (e = "b"%char) then Some "008"%char
  else if decide (e = "f"%char) then Some "012"%char
  else if decide (e = "n"%char) then Some "010"%char
  else if decide (e = "r"%char) then Some "013"%char
  else if decide (e = "t"%char) then Some "009"%char
  else None.

Definition prepend (c : ascii) (m : outcome (string * string))
    : outcome (string * string) :=
  bind m (λ '(s, rest), Got (String c s, rest)).

(** A string, from after its opening quote: its content, and the text
    after its closing quote. *)
Fixpoint scan_string (s : string) : outcome (string * string) :=
  match s with
  | EmptyString => Malformed
  | String c s' =>
      if decide (c = "034"%char) then Got ("", s')
      else if decide (c = Json.backslash) then
        match s' with
        | EmptyString => Malformed
        | String e s'' =>
            if decide (e = "u"%char) then
              match s'' with
              | String h1 (String h2 (String h3 (String h4 r))) =>
                  bind (unicode_escape h1 h2 h3 h4)
                       (λ c', prepend c' (scan_string r))
              | _ => Malformed
              end
            else
              match simple_escape e with
              | Some c' => prepend c' (scan_string s'')
              | None => Malformed
              end
        end
      else if (N_of_ascii c <? 32)%N then Malformed
      else prepend c (scan_string s')
  end.

(** [s] without the prefix [p], when it starts with it. *)
Fixpoint strip_prefix (p s : string) : option string :=
  match p, s with
  | EmptyString, _ => Some s
  | String a p', String b s' =>
      if decide (a = b) then strip_prefix p' s' else None
  | String _ _, EmptyString => None
  end.

(** One of [null], [true], [false]. *)
Definition literal (lit : string) (v : Json.value) (s : string)
    : outcome (Json.value * string) :=
  match strip_prefix lit s with
  | Some rest => Got (v, rest)
  | None => Malformed
  end.

(** The first character of something the model does not follow: an
    array, a number, [NaN], [Infinity]. *)
Definition starts_unmodelled (c : ascii) : bool :=
  bool_decide (c ∈ ["["; "-"; "N"; "I"]%char) ||
  ((48 <=? N_of_ascii c)%N && (N_of_ascii c <=? 57)%N).

(** The pairs of an object, from a property name on, added to [acc] as
    [dict[key] = value] does.  [n] bounds the number of pairs. *)
Fixpoint parse_members (parse_value : string → outcome (Json.value * string))
    (n : nat) (acc : dict Json.value) (s : string)
    : outcome (Json.value * string) :=
  match n, s with
  | S n', String "034" s1 =>
      bind (scan_string s1) (λ '(key, s2),
      match skip_whitespace s2 with
      | String ":" s3 =>
          bind (parse_value (skip_whitespace s3)) (λ '(v, s4),
          let acc' := setitem acc key v in
          match skip_whitespace s4 with
          | String "}" s5 => Got (Json.Obj acc', s5)
          | String "," s5 =>
              parse_members parse_value n' acc' (skip_whitespace s5)
          | _ => Malformed
          end)
      | _ => Malformed
      end)
  | S _, _ => Malformed
  | O, _ => Unmodelled
  end.

(** A value, from its first character.  [depth] bounds the nesting. *)
Fixpoint parse_value (depth : nat) (s : string)
    : outcome (Json.value * string) :=
  match depth, s with
  | O, _ => Unmodelled
  | S d, String c s' =>
      if decide (c = "034"%char)
      then bind (scan_string s') (λ '(x, rest), Got (Json.Str x, rest))
      else if decide (c = "{"%char) then
        match skip_whitespace s' with
        | String "}" rest => Got (Json.Obj [], rest)
        | s1 => parse_members (parse_value d) (String.length s1) [] s1
        end
      else if decide (c = "n"%char) then literal "null" Json.Null s
      else if decide (c = "t"%char) then literal "true" (Json.Bool true) s
      else if decide (c = "f"%char) then literal "false" (Json.Bool false) s
      else if starts_unmodelled c then Unmodelled
      else Malformed
  | S _, EmptyString => Malformed
  end.

(** The nesting the model follows; Python's own bound, its recursion
    limit, is higher. *)
Definition max_depth : nat := 100.

(** [json.loads(s)] *)
Definition loads (s : string) : outcome Json.value :=
  bind (parse_value max_depth (skip_whitespace s)) (λ '(v, rest),
  match skip_whitespace rest with
  | EmptyString => Got v
  | _ => Malformed
  end).

(** How deep the objects of a value are nested. *)
Fixpoint nesting (v : Json.value) : nat :=
  match v with
  | Json.Obj fields => S (list_max (map (λ kv, nesting kv.2) fields))
  | _ => 1
  end.

(** No object of the value has a key twice. *)
Fixpoint distinct_keys (v : Json.value) : Prop :=
  match v with
  | Json.Obj fields =>
      NoDup (keys fields) ∧
      fold_right (λ kv rest, distinct_keys kv.2 ∧ rest) True fields
  | _ => True
  end.

End JsonDecoder.

(** ** The baseline store: [load_baseline_for] *)

(** What a text file opened for reading with [newline=None] gives for
    its content: a carriage return, with or without a line feed after
    it, is read as a line feed. *)
Fixpoint universal_newlines (s : string) : string :=
  match s with
  | String "013" (String "010" s') => String "010" (universal_newlines s')
  | String "013" s' => String "010" (universal_newlines s')
  | String c s' => String c (universal_newlines s')
  | EmptyString => ""
  end.

(** What the system does to one load: the file is read, or opening or
    reading it raises [e]. *)
Inductive read_outcome : Type :=
| AllRead
| ReadFails (e : exn).

(** How [load_baseline_for] ends: it returns a value ([Json.Null] is
    Python's [None]), or it raises. *)
Inductive load_result : Type :=
| Returns (baseline : Json.value)
| Raises (e : exn)
| RaisesJSONDecodeError
| LoadUnmodelled.

Definition load_baseline_for (rd : read_outcome) (path_str : string)
    (disk : Disk) : load_result :=
  let key := safe_name_hash path_str in
  let fp := BASE_DIR +:+ "/" +:+ key +:+ ".json" in
  match disk !! fp with
  | None => Returns Json.Null
  | Some text =>
      match rd with
      | ReadFails e => Raises e
      | AllRead =>
          match JsonDecoder.loads (universal_newlines text) with
          | JsonDecoder.Got v => Returns v
          | JsonDecoder.Malformed => RaisesJSONDecodeError
          | JsonDecoder.Unmodelled => LoadUnmodelled
          end
      end
  end.


(** ** The records of a loaded baseline *)

(** [json.load] gives each record back as the dictionary
    [get_file_info] built.  [FileRecord_of_json] reads such a dictionary
    as the record it is; of a value of another shape, which the program
    does not write, the model says nothing. *)
Definition record_keys (r : FileRecord) : list string :=
  ["name"; "relpath"; "size"; "created"; "modified"; "accessed"; "is_file"] ++
  match error r with
  | Some _ => ["error"]
  | None => []
  end.

Definition get_str (fields : dict Json.value) (k : string) : option string :=
  match get fields k with
  | Some (Json.Str s) => Some s
  | _ => None
  end.

Definition get_opt_str (fields : dict Json.value) (k : string)
    : option (option string) :=
  match get fields k with
  | Some (Json.Str s) => Some (Some s)
  | Some Json.Null => Some None
  | _ => None
  end.

Definition get_bool (fields : dict Json.value) (k : string) : option bool :=
  match get fields k with
  | Some (Json.Bool b) => Some b
  | _ => None
  end.

Definition FileRecord_of_json (v : Json.value) : option FileRecord :=
  match v with
  | Json.Obj fields =>
      n ← get_str fields "name";
      p ← get_str fields "relpath";
      sz ← get_opt_str fields "size";
      c ← get_opt_str fields "created";
      m ← get_opt_str fields "modified";
      a ← get_opt_str fields "accessed";
      isf ← get_bool fields "is_file";
      e ← match get fields "error" with
          | None => Some None
          | Some (Json.Str e) => Some (Some e)
          | Some _ => None
          end;
      let r := {| name := n; relpath := p; size := sz; created := c;
                  modified := m; accessed := a; is_file := isf;
                  error := e |} in
      if decide (keys fields = record_keys r) then Some r else None
  | _ => None
  end.

Fixpoint records_of_json (fields : dict Json.value)
    : option (dict FileRecord) :=
  match fields with
  | [] => Some []
  | (k, x) :: rest =>
      r ← FileRecord_of_json x;
      rs ← records_of_json rest;
      Some ((k, r) :: rs)
  end.

(** ** The handlers of the two buttons that scan *)

(** [bool(v)] *)
Definition truthy (v : Json.value) : bool :=
  match v with
  | Json.Null => false
  | Json.Bool b => b
  | Json.Str s => negb (bool_decide (s = ""))
  | Json.Obj [] => false
  | Json.Obj (_ :: _) => true
  end.

(** What "Create / Update Baseline" shows: the path of the saved file
    and the number of files scanned, or the error. *)
Inductive create_view : Type :=
| BaselineSaved (fp : string) (total : nat)
| CreateError (e : exn).

(** The [try] block of the handler and its [except Exception]. *)
Definition on_create_baseline (w : World) (io : io_outcome) (now : string)
    (folder_input : string) (disk : Disk) : create_view * Disk :=
  match scan_folder w folder_input with
  | Raise e => (CreateError e, disk)
  | Ok current =>
      match save_baseline_for io now folder_input current disk with
      | (Ok fp, disk') => (BaselineSaved fp (length current), disk')
      | (Raise e, disk') => (CreateError e, disk')
      end
  end.

(** What "Scan & Compare with Baseline" shows, up to the four metrics:
    the warning that there is no baseline; the metrics and the
    comparison the tables are drawn from; the error of the [try] block;
    or nothing, when [load_baseline_for], which is called outside the
    [try] block, raises. *)
Inductive compare_view : Type :=
| BaselineNotFound
| Summary (baseline_files current_files added_files deleted_files : nat)
          (comp : DiffResult)
| CompareError (e : exn)
| LoadRaised (e : exn)
| LoadRaisedJSONDecodeError
| ViewUnmodelled.

Definition on_compare (w : World) (rd : read_outcome)
    (folder_input : string) (disk : Disk) : compare_view :=
  match load_baseline_for rd folder_input disk with
  | Raises e => LoadRaised e
  | RaisesJSONDecodeError => LoadRaisedJSONDecodeError
  | LoadUnmodelled => ViewUnmodelled
  | Returns baseline =>
      if negb (truthy baseline) then BaselineNotFound
      else
        match scan_folder w folder_input with
        | Raise e => CompareError e
        | Ok curr =>
            match baseline with
            | Json.Obj fields =>
                match getitem fields "files" with
                | Raise e => CompareError e
                | Ok (Json.Obj files_json) =>
                    match records_of_json files_json with
                    | Some files =>
                        match compare files curr with
                        | Ok comp =>
                            Summary (length files) (length curr)
                                    (length (added comp))
                                    (length (deleted comp)) comp
                        | Raise e => CompareError e
                        end
                    | None => ViewUnmodelled
                    end
                | Ok _ => ViewUnmodelled
                end
            | _ => ViewUnmodelled
            end
        end
  end.

(** ** Example data *)

Definition rec_f_2024 : FileRecord :=
  {| name := "f.txt"; relpath := "/data/f.txt";
     size := Some "1.00 KB";
     created := Some "2024-01-01 00:00:00";
     modified := Some "2024-01-01 00:00:00";
     accessed := Some "2024-01-01 00:00:00";
     is_file := true; error := None |}.

Definition rec_f_later : FileRecord :=
  {| name := "f.txt"; relpath := "/data/f.txt";
     size := Some "1.00 KB";
     created := Some "2024-01-01 00:00:00";
     modified := Some "2024-01-01 00:00:05";
     accessed := Some "2024-01-01 00:00:00";
     is_file := true; error := None |}.

Definition rec_f_unreadable : FileRecord :=
  {| name := "f.txt"; relpath := "/data/f.txt";
     size := None; created := None; modified := None; accessed := None;
     is_file := false;
     error := Some "[Errno 2] No such file or directory: '/data/f.txt'" |}.

(** [rec_f_2024] after the file was read: only [accessed] differs. *)
Definition rec_f_read : FileRecord :=
  {| name := "f.txt"; relpath := "/data/f.txt";
     size := Some "1.00 KB";
     created := Some "2024-01-01 00:00:00";
     modified := Some "2024-01-01 00:00:00";
     accessed := Some "2024-01-01 00:00:09";
     is_file := true; error := None |}.

Definition snap_2024 : dict FileRecord := [("/data/f.txt", rec_f_2024)].
Definition snap_read : dict FileRecord := [("/data/f.txt", rec_f_read)].
Definition snap_later : dict FileRecord := [("/data/f.txt", rec_f_later)].
Definition snap_unreadable : dict FileRecord :=
  [("/data/f.txt", rec_f_unreadable)].

(** A world with one folder, [/data]: a file of 100 bytes, a lock
    file, and a file whose attributes cannot be read because it vanished
    after the directory was listed.  In [/vault], a directory that can
    be listed but not searched, [stat] is refused. *)
Definition regular_100 : stat_result :=
  {| st_mode := 33188; st_size := 100;
     st_atime := 1704067200%Z; st_mtime := 1704067200%Z;
     st_ctime := 1704067200%Z |}.

Definition directory_stat : stat_result :=
  {| st_mode := 16877; st_size := 4096;
     st_atime := 1704067200%Z; st_mtime := 1704067200%Z;
     st_ctime := 1704067200%Z |}.

Definition new_year_2024 : datetime :=
  {| year := 2024; month := 1; day := 1;
     hour := 0; minute := 0; second := 0 |}.

Definition demo_stat (path : string) : stat_error + stat_result :=
  if decide (path = "/data") then inr directory_stat
  else if decide (path = "/vault") then inr directory_stat
  else if decide (path = "/data/a.txt") then inr regular_100
  else if decide (path = "/data/~$lock.tmp") then inr regular_100
  else if decide (path = "/vault/key.pem")
  then inl (StatOSError EACCES
              "[Errno 13] Permission denied: '/vault/key.pem'")
  else inl (StatOSError ENOENT
              ("[Errno 2] No such file or directory: '" +:+ path +:+ "'")).

Definition demo_walk (top : string)
    : list (string * list string * list string) :=
  if decide (top = "/data")
  then [("/data", [], ["a.txt"; "~$lock.tmp"; "gone.txt"])]
  else if decide (top = "/vault")
  then [("/vault", [], ["key.pem"])]
  else [].

Definition demo_world : World :=
  {| os_stat := demo_stat;
     os_walk := demo_walk;
     fromtimestamp := λ _, Some new_year_2024 |}.



Definition rec_a_txt : FileRecord :=
  {| name := "a.txt"; relpath := "/data/a.txt";
     size := Some "100.00 B";
     created := Some "2024-01-01 00:00:00";
     modified := Some "2024-01-01 00:00:00";
     accessed := Some "2024-01-01 00:00:00";
     is_file := true; error := None |}.

Definition rec_gone_txt : FileRecord :=
  {| name := "gone.txt"; relpath := "/data/gone.txt";
     size := None; created := None; modified := None; accessed := None;
     is_file := false;
     error := Some "[Errno 2] No such file or directory: '/data/gone.txt'" |}.

(** Text with quotation marks and line ends, written with ['] for the
    mark and [|] for the line end. *)
Fixpoint plain_text (s : string) : string :=
  match s with
  | EmptyString => ""
  | String c s' =>
      if decide (c = "'"%char) then String "034"%char (plain_text s')
      else if decide (c = "|"%char) then String "010"%char (plain_text s')
      else String c (plain_text s')
  end.

(** The baseline of [/data] saved on 2 January 2024, as Python writes
    it. *)
Definition baseline_text_2024 : string :=
  plain_text
    ("{|  'folder': '/data',|  'created_at': '2024-01-02T03:04:05.000006'," +:+
     "|  'files': {|    '/data/f.txt': {|      'name': 'f.txt'," +:+
     "|      'relpath': '/data/f.txt',|      'size': '1.00 KB'," +:+
     "|      'created': '2024-01-01 00:00:00'," +:+
     "|      'modified': '2024-01-01 00:00:00'," +:+
     "|      'accessed': '2024-01-01 00:00:00'," +:+
     "|      'is_file': true|    }|  }|}").

Definition baseline_file_data : string :=
  ".folder_forensics_baselines/9112fb2807d43dd27fe08840179971e4632a7f2b.json".

(** A disk that holds that baseline. *)
Definition disk_2024 : Disk := {[ baseline_file_data := baseline_text_2024 ]}.

Definition ENOSPC : Z := 28.

Definition disk_full : exn :=
  OSError ENOSPC "[Errno 28] No space left on device".

(* ================================================================== *)
(** * Part II: properties *)
(* ================================================================== *)

(** ** Dictionaries *)

Lemma get_Some_keys {V} (d : dict V) k : is_Some (get d k) ↔ k ∈ keys d.
Proof.
  induction d as [|[k' v] d IH]; simpl.
  - split; [intros [? [=]] | intros H; inversion H].
  - unfold keys in *. simpl. rewrite elem_of_cons. case_decide; subst.
    + split; eauto.
    + rewrite IH. split; [eauto | intros [?|?]; congruence].
Qed.

Lemma elem_of_key_set {V} (d : dict V) k : k ∈ key_set d ↔ k ∈ keys d.
Proof. unfold key_set. apply elem_of_list_to_set. Qed.

(** ** The order on paths *)

#[global] Instance str_le_total : Total str_le.
Proof.
  intros a b. unfold str_le.
  destruct (String.leb_total a b) as [H|H]; rewrite H; simpl; auto.
Qed.

Lemma ascii_compare_lt_trans a b c :
  Ascii.compare a b = Lt → Ascii.compare b c = Lt → Ascii.compare a c = Lt.
Proof.
  unfold Ascii.compare. rewrite !N.compare_lt_iff. apply N.lt_trans.
Qed.

Lemma string_compare_le_trans a : ∀ b c,
  String.compare a b ≠ Gt → String.compare b c ≠ Gt → String.compare a c ≠ Gt.
Proof.
  induction a as [|x a IH]; intros [|y b] [|z c]; simpl; try congruence.
  destruct (Ascii.compare x y) eqn:Hxy; try congruence.
  - apply Ascii.compare_eq_iff in Hxy. subst y.
    destruct (Ascii.compare x z) eqn:Hxz; try congruence. apply IH.
  - destruct (Ascii.compare y z) eqn:Hyz; try congruence.
    + apply Ascii.compare_eq_iff in Hyz. subst z. rewrite Hxy. congruence.
    + rewrite (ascii_compare_lt_trans _ _ _ Hxy Hyz). congruence.
Qed.

Lemma str_le_compare a b : str_le a b ↔ String.compare a b ≠ Gt.
Proof.
  unfold str_le, String.leb. destruct (String.compare a b); simpl; split;
    intros; try congruence; try done.
Qed.

#[global] Instance str_le_trans : Transitive str_le.
Proof.
  intros a b c. rewrite !str_le_compare. apply string_compare_le_trans.
Qed.

#[global] Instance str_le_antisym : AntiSymm (=) str_le.
Proof.
  intros a b Hab Hba. apply String.leb_antisym; by apply Is_true_true.
Qed.

Lemma sorted_elem_of l p : p ∈ sorted l ↔ p ∈ l.
Proof. unfold sorted. by rewrite merge_sort_Permutation. Qed.

Lemma sorted_NoDup l : NoDup l → NoDup (sorted l).
Proof. unfold sorted. by rewrite merge_sort_Permutation. Qed.

Lemma sorted_StronglySorted l : StronglySorted str_le (sorted l).
Proof. unfold sorted. apply StronglySorted_merge_sort; apply _. Qed.

Lemma StronglySorted_filter {A} (R : relation A) (P : A → Prop)
    `{!∀ x, Decision (P x)} (l : list A) :
  StronglySorted R l → StronglySorted R (filter P l).
Proof.
  induction 1 as [|x l Hl IH Hx]; [constructor|].
  rewrite filter_cons. case_decide; [|done].
  constructor; [done|]. apply Forall_forall. intros y Hy.
  apply list_elem_of_filter in Hy as [_ Hy].
  rewrite Forall_forall in Hx. by apply Hx.
Qed.

(** ** [compare] *)

(** The loop never raises on paths of both dictionaries, and splits them
    by [changed_in], keeping their order. *)
Lemma compare_loop_filter old new common : ∀ ch un,
  Forall (λ p, p ∈ keys old ∧ p ∈ keys new) common →
  compare_loop old new common ch un =
    Ok (ch ++ filter (λ p, changed_in old new p = true) common,
        un ++ filter (λ p, ¬ changed_in old new p = true) common).
Proof.
  induction common as [|p rest IH]; intros ch un Hall; simpl.
  - by rewrite !app_nil_r.
  - apply Forall_cons in Hall as [[Ho Hn] Hrest].
    apply get_Some_keys in Ho as [o Ho]. apply get_Some_keys in Hn as [n Hn].
    unfold getitem. rewrite Ho, Hn. simpl.
    assert (Hc : changed_in old new p = differs o n)
      by (unfold changed_in; by rewrite Ho, Hn).
    rewrite !filter_cons.
    destruct (differs o n) eqn:Hd; rewrite IH by done.
    + rewrite decide_True by done.
      rewrite decide_False by (rewrite Hc; intros H; by apply H).
      by rewrite <- app_assoc.
    + rewrite decide_False by (by rewrite Hc).
      rewrite decide_True by (by rewrite Hc).
      by rewrite <- app_assoc.
Qed.

Lemma elem_of_common_paths old new p :
  p ∈ common_paths old new ↔ p ∈ keys old ∧ p ∈ keys new.
Proof.
  unfold common_paths. rewrite sorted_elem_of, elem_of_elements,
    elem_of_intersection, !elem_of_key_set. done.
Qed.

(** [compare] in closed form: it always returns, and what it returns. *)
Lemma compare_eq old new :
  compare old new =
    Ok {| added := sorted (elements (key_set new ∖ key_set old));
          deleted := sorted (elements (key_set old ∖ key_set new));
          changed := filter (λ p, changed_in old new p = true)
                            (common_paths old new);
          unchanged := filter (λ p, ¬ changed_in old new p = true)
                              (common_paths old new) |}.
Proof.
  unfold compare. fold (common_paths old new).
  rewrite compare_loop_filter.
  - done.
  - apply Forall_forall. intros p. apply elem_of_common_paths.
Qed.

(** Membership in the four lists [compare] returns. *)
Lemma elem_of_compare old new :
  ∃ r, compare old new = Ok r ∧
    ∀ p,
      (p ∈ added r ↔ p ∈ keys new ∧ p ∉ keys old) ∧
      (p ∈ deleted r ↔ p ∈ keys old ∧ p ∉ keys new) ∧
      (p ∈ changed r ↔
         (p ∈ keys old ∧ p ∈ keys new) ∧ changed_in old new p = true) ∧
      (p ∈ unchanged r ↔
         (p ∈ keys old ∧ p ∈ keys new) ∧ changed_in old new p ≠ true).
Proof.
  eexists. split; [apply compare_eq|]. intros p. simpl.
  rewrite !sorted_elem_of, !elem_of_elements, !elem_of_difference,
    !elem_of_key_set, !list_elem_of_filter, !elem_of_common_paths.
  tauto.
Qed.

Lemma NoDup_compare old new :
  ∃ r, compare old new = Ok r ∧
    NoDup (added r) ∧ NoDup (deleted r) ∧
    NoDup (changed r) ∧ NoDup (unchanged r).
Proof.
  eexists. split; [apply compare_eq|]. simpl.
  repeat split; try apply NoDup_filter; apply sorted_NoDup, NoDup_elements.
Qed.

Lemma differs_true o n :
  differs o n = true ↔ size o ≠ size n ∨ modified o ≠ modified n.
Proof.
  unfold differs. rewrite orb_true_iff, !bool_decide_eq_true. done.
Qed.

Lemma differs_false o n :
  differs o n ≠ true ↔ size o = size n ∧ modified o = modified n.
Proof.
  rewrite differs_true.
  destruct (decide (size o = size n)), (decide (modified o = modified n));
    tauto.
Qed.

(** C1.  For every two dictionaries [compare] returns, and the four
    lists it returns are pairwise disjoint, hold no path twice, and
    together hold exactly the keys of the two dictionaries. *)
Theorem compare_partition (old new : dict FileRecord) :
  ∃ r, compare old new = Ok r ∧
    pairwise_disjoint r ∧
    NoDup (added r ++ deleted r ++ changed r ++ unchanged r) ∧
    result_paths r = key_set old ∪ key_set new.
Proof.
  destruct (elem_of_compare old new) as (r & Hr & Hin).
  destruct (NoDup_compare old new) as (r' & Hr' & Ha & Hd & Hc & Hu).
  assert (r' = r) by congruence. subst r'.
  exists r. split; [done|].
  assert (Hdisj : pairwise_disjoint r).
  { unfold pairwise_disjoint.
    repeat split; intros p H1 H2;
      destruct (Hin p) as (Ia & Id & Ic & Iu);
      first [apply Ia in H1 | apply Id in H1 | apply Ic in H1];
      first [apply Id in H2 | apply Ic in H2 | apply Iu in H2]; tauto. }
  split; [done|]. split.
  - destruct Hdisj as (D1 & D2 & D3 & D4 & D5 & D6).
    rewrite !NoDup_app. repeat split; try done.
    + intros p H1 H2. rewrite !elem_of_app in H2.
      destruct H2 as [H2|[H2|H2]];
        [by apply (D1 p) | by apply (D2 p) | by apply (D3 p)].
    + intros p H1 H2. rewrite !elem_of_app in H2.
      destruct H2 as [H2|H2]; [by apply (D4 p) | by apply (D5 p)].
  - apply set_eq. intros p. unfold result_paths.
    rewrite !elem_of_union, !elem_of_list_to_set, !elem_of_key_set.
    destruct (Hin p) as (-> & -> & -> & ->).
    destruct (decide (p ∈ keys old)), (decide (p ∈ keys new)),
      (decide (changed_in old new p = true)); tauto.
Qed.

(** A path with a record in each dictionary is sorted by the test of
    the loop, and is neither added nor deleted. *)
Lemma compare_common_path (old new : dict FileRecord) (p : string)
    (o n : FileRecord) :
  get old p = Some o → get new p = Some n →
  ∃ r, compare old new = Ok r ∧
    (p ∈ changed r ↔ differs o n = true) ∧
    (p ∈ unchanged r ↔ differs o n ≠ true) ∧
    (p ∉ added r) ∧ (p ∉ deleted r).
Proof.
  intros Ho Hn.
  destruct (elem_of_compare old new) as (r & Hr & Hin).
  exists r. split; [done|].
  destruct (Hin p) as (Ia & Id & Ic & Iu).
  assert (Ko : p ∈ keys old) by (apply get_Some_keys; eauto).
  assert (Kn : p ∈ keys new) by (apply get_Some_keys; eauto).
  assert (Hc : changed_in old new p = differs o n)
    by (unfold changed_in; by rewrite Ho, Hn).
  rewrite Ic, Iu, Ia, Id, Hc. tauto.
Qed.

(** C2.  A path of both dictionaries is in [changed] exactly when the
    two records differ in [size] or in [modified], and in [unchanged]
    exactly when they agree on both; it is in neither other list. *)
Theorem compare_classifies (old new : dict FileRecord) (p : string)
    (o n : FileRecord) :
  get old p = Some o → get new p = Some n →
  ∃ r, compare old new = Ok r ∧
    (p ∈ changed r ↔ size o ≠ size n ∨ modified o ≠ modified n) ∧
    (p ∈ unchanged r ↔ size o = size n ∧ modified o = modified n) ∧
    (p ∉ added r) ∧ (p ∉ deleted r).
Proof.
  intros Ho Hn.
  destruct (compare_common_path old new p o n Ho Hn)
    as (r & Hr & Hc & Hu & Ha & Hd).
  exists r. split; [done|].
  split; [by rewrite Hc, differs_true|].
  split; [by rewrite Hu, differs_false|]. done.
Qed.

Lemma compare_classifies_witness :
  get snap_2024 "/data/f.txt" = Some rec_f_2024 ∧
  get snap_later "/data/f.txt" = Some rec_f_later ∧
  ∃ r, compare snap_2024 snap_later = Ok r ∧
    ("/data/f.txt" ∈ changed r ↔
       size rec_f_2024 ≠ size rec_f_later ∨
       modified rec_f_2024 ≠ modified rec_f_later) ∧
    ("/data/f.txt" ∈ unchanged r ↔
       size rec_f_2024 = size rec_f_later ∧
       modified rec_f_2024 = modified rec_f_later) ∧
    ("/data/f.txt" ∉ added r) ∧ ("/data/f.txt" ∉ deleted r).
Proof.
  split; [reflexivity|]. split; [reflexivity|].
  apply (compare_classifies snap_2024 snap_later "/data/f.txt"
           rec_f_2024 rec_f_later); reflexivity.
Defined.

(** The scenario of the specification: same size, [modified] five
    seconds later, so the file is [changed]. *)
Example compare_modified_later :
  compare snap_2024 snap_later =
    Ok {| added := []; deleted := []; changed := ["/data/f.txt"];
          unchanged := [] |}.
Proof. vm_compute. reflexivity. Qed.

(** C7.  Each of the four lists [compare] returns is sorted by
    Python's order on [str] (every path is [<=] all paths after it). *)
Theorem compare_sorted (old new : dict FileRecord) :
  ∃ r, compare old new = Ok r ∧
    StronglySorted str_le (added r) ∧
    StronglySorted str_le (deleted r) ∧
    StronglySorted str_le (changed r) ∧
    StronglySorted str_le (unchanged r).
Proof.
  eexists. split; [apply compare_eq|]. simpl.
  repeat split; try apply StronglySorted_filter; apply sorted_StronglySorted.
Qed.

(** The claim C3 fails as stated.  The file is in both snapshots, the
    second record is the record of a failed [stat], and [compare] puts
    the path in [changed]: the absent [size] of the error record differs
    from the size read before. *)
Lemma compare_error_record_changed :
  get snap_2024 "/data/f.txt" = Some rec_f_2024 ∧
  get snap_unreadable "/data/f.txt" = Some rec_f_unreadable ∧
  stat_failed rec_f_unreadable ∧
  compare snap_2024 snap_unreadable =
    Ok {| added := []; deleted := []; changed := ["/data/f.txt"];
          unchanged := [] |}.
Proof.
  repeat split; try reflexivity. simpl. eauto.
Qed.

(** C3 (as amended).  [compare] never reads [error]; it compares [size]
    and [modified], and an absent value equals only an absent value.
    So a path of both dictionaries is [unchanged] when both records are
    records of a failed [stat], and [changed] when one is and the other
    is the record of a successful one. *)
Theorem compare_error_records (old new : dict FileRecord) (p : string)
    (o n : FileRecord) :
  get old p = Some o → get new p = Some n →
  ∃ r, compare old new = Ok r ∧
    (stat_failed o ∧ stat_failed n → p ∈ unchanged r ∧ p ∉ changed r) ∧
    (stat_failed o ∧ stat_ok n → p ∈ changed r) ∧
    (stat_ok o ∧ stat_failed n → p ∈ changed r).
Proof.
  intros Ho Hn.
  destruct (compare_common_path old new p o n Ho Hn) as (r & Hr & Hc & Hu & _).
  exists r. split; [done|]. rewrite Hc, Hu, differs_true.
  unfold stat_failed, stat_ok. split; [|split].
  - intros [(_ & So & Mo) (_ & Sn & Mn)]. rewrite So, Sn, Mo, Mn.
    split; intros [?|?]; done.
  - intros [(_ & So & _) (_ & [s Sn])]. left. rewrite So, Sn. done.
  - intros [(_ & [s So]) (_ & Sn & _)]. left. rewrite So, Sn. done.
Qed.

Lemma compare_error_records_witness :
  get snap_unreadable "/data/f.txt" = Some rec_f_unreadable ∧
  get snap_2024 "/data/f.txt" = Some rec_f_2024 ∧
  ∃ r, compare snap_unreadable snap_2024 = Ok r ∧
    (stat_failed rec_f_unreadable ∧ stat_failed rec_f_2024 →
       "/data/f.txt" ∈ unchanged r ∧ "/data/f.txt" ∉ changed r) ∧
    (stat_failed rec_f_unreadable ∧ stat_ok rec_f_2024 →
       "/data/f.txt" ∈ changed r) ∧
    (stat_ok rec_f_unreadable ∧ stat_failed rec_f_2024 →
       "/data/f.txt" ∈ changed r).
Proof.
  split; [reflexivity|]. split; [reflexivity|].
  apply (compare_error_records snap_unreadable snap_2024 "/data/f.txt"
           rec_f_unreadable rec_f_2024); reflexivity.
Defined.

(** ** Further properties of [compare] *)

(** Any sorted arrangement of a list is the one [sorted] returns. *)
Lemma sorted_unique (l l' : list string) :
  Sorted str_le l' → l' ≡ₚ l → l' = sorted l.
Proof.
  intros Hs Hp. apply (Sorted_unique str_le); [done| |].
  - unfold sorted. apply Sorted_merge_sort. apply _.
  - unfold sorted. by rewrite merge_sort_Permutation.
Qed.

(** For a dictionary (no key twice), sorting its set of keys is sorting
    its keys. *)
Lemma sorted_key_set {V} (d : dict V) :
  NoDup (keys d) → sorted (elements (key_set d)) = sorted (keys d).
Proof.
  intros Hnd. apply sorted_unique.
  - unfold sorted. apply Sorted_merge_sort. apply _.
  - unfold sorted, key_set.
    by rewrite merge_sort_Permutation, elements_list_to_set.
Qed.

Lemma filter_all {A} (P : A → Prop) `{!∀ x, Decision (P x)} (l : list A) :
  Forall P l → filter P l = l.
Proof.
  induction 1 as [|x l Hx _ IH]; [done|].
  by rewrite filter_cons, decide_True, IH.
Qed.

Lemma filter_none {A} (P : A → Prop) `{!∀ x, Decision (P x)} (l : list A) :
  Forall (λ x, ¬ P x) l → filter P l = [].
Proof.
  induction 1 as [|x l Hx _ IH]; [done|].
  by rewrite filter_cons, decide_False, IH.
Qed.

Lemma differs_same (r : FileRecord) : differs r r = false.
Proof.
  unfold differs. by rewrite !bool_decide_eq_false_2 by (intros H; by apply H).
Qed.

(** X1.  A snapshot compared with itself: every path is unchanged. *)
Theorem compare_same (s : dict FileRecord) :
  compare s s =
    Ok {| added := []; deleted := []; changed := [];
          unchanged := sorted (elements (key_set s)) |}.
Proof.
  rewrite compare_eq. unfold common_paths.
  rewrite difference_diag_L, intersection_idemp_L, elements_empty.
  assert (Hsame : Forall (λ p, ¬ changed_in s s p = true)
                    (sorted (elements (key_set s)))).
  { apply Forall_forall. intros p _. unfold changed_in.
    destruct (get s p) as [r|]; [|done]. by rewrite differs_same. }
  rewrite (filter_all _ _ Hsame).
  rewrite filter_none; [done|].
  eapply Forall_impl; [exact Hsame|]. intros p Hp Hc. by apply Hp.
Qed.

(** X2.  An empty baseline: every path of the new snapshot is added. *)
Theorem compare_empty_baseline (new : dict FileRecord) :
  compare [] new =
    Ok {| added := sorted (elements (key_set new)); deleted := [];
          changed := []; unchanged := [] |}.
Proof.
  rewrite compare_eq. unfold common_paths.
  change (key_set ([] : dict FileRecord)) with (∅ : gset string).
  rewrite difference_empty_L, empty_difference_L, (left_absorb_L ∅ (∩)).
  by rewrite elements_empty.
Qed.

(** X3.  An empty new snapshot: every path of the baseline is deleted. *)
Theorem compare_empty_current (old : dict FileRecord) :
  compare old [] =
    Ok {| added := []; deleted := sorted (elements (key_set old));
          changed := []; unchanged := [] |}.
Proof.
  rewrite compare_eq. unfold common_paths.
  change (key_set ([] : dict FileRecord)) with (∅ : gset string).
  rewrite difference_empty_L, empty_difference_L, (right_absorb_L ∅ (∩)).
  by rewrite elements_empty.
Qed.

(** ** [human_readable_size] *)

Example size_100 : human_readable_size (Some 100%Z) = Ok (Some "100.00 B").
Proof. reflexivity. Qed.

Example size_1536 : human_readable_size (Some 1536%Z) = Ok (Some "1.50 KB").
Proof. reflexivity. Qed.

(** [1152 / 1024] is [1.125], a tie, and goes to the even hundredth. *)
Example size_1152 : human_readable_size (Some 1152%Z) = Ok (Some "1.12 KB").
Proof. reflexivity. Qed.

Example size_1408 : human_readable_size (Some 1408%Z) = Ok (Some "1.38 KB").
Proof. reflexivity. Qed.

Example size_5GB :
  human_readable_size (Some (5 * 1024 ^ 3 + 1)%Z) = Ok (Some "5.00 GB").
Proof. reflexivity. Qed.

Example size_None : human_readable_size None = Ok None.
Proof. reflexivity. Qed.

Example size_0 : human_readable_size (Some 0%Z) = Ok (Some "0.00 B").
Proof. reflexivity. Qed.

(** One byte short of 1 MB: scaled below 1024, rendered as 1024.00. *)
Example size_1048575 :
  human_readable_size (Some 1048575%Z) = Ok (Some "1024.00 KB").
Proof. reflexivity. Qed.

(** One byte short of 1024 PB: the division rounds the double up. *)
Example size_below_1024PB :
  human_readable_size (Some (2 ^ 60 - 1)%Z) = Ok (Some "1024.00 PB").
Proof. reflexivity. Qed.

(** *** Rounding *)

Lemma round_half_even_div_nearest (a d : Z) :
  (0 <= a)%Z → (0 < d)%Z →
  (2 * Z.abs (a - round_half_even_div a d * d) <= d)%Z.
Proof.
  intros Ha Hd. unfold round_half_even_div.
  pose proof (Z.div_mod a d ltac:(lia)) as Hdm.
  pose proof (Z.mod_pos_bound a d Hd) as Hr.
  set (q := (a / d)%Z) in *. set (r := (a mod d)%Z) in *.
  destruct (2 * r <? d)%Z eqn:H1; [apply Z.ltb_lt in H1; nia|].
  apply Z.ltb_ge in H1.
  destruct (d <? 2 * r)%Z eqn:H2; [apply Z.ltb_lt in H2; nia|].
  apply Z.ltb_ge in H2. destruct (Z.even q); nia.
Qed.

Lemma round_half_even_div_bounds (a d : Z) :
  (0 <= a)%Z → (0 < d)%Z →
  (a / d <= round_half_even_div a d <= a / d + 1)%Z.
Proof.
  intros Ha Hd. unfold round_half_even_div.
  repeat match goal with |- context [if ?b then _ else _] => destruct b end;
    lia.
Qed.

Lemma round53_small (n : Z) : (0 <= n < 2 ^ 53)%Z → round53 n = n.
Proof.
  intros [H0 H1]. unfold round53.
  destruct (Z.log2 (Z.abs n) + 1 <=? 53)%Z eqn:Hb; [done|].
  apply Z.leb_gt in Hb. rewrite Z.abs_eq in Hb by done.
  destruct (decide (n = 0%Z)) as [->|Hn]; [simpl in Hb; lia|].
  assert (Z.log2 n < 53)%Z by (apply Z.log2_lt_pow2; lia). lia.
Qed.

(** What rounding to 53 bits does to a large [n]: it lands between the
    powers of two around [n]. *)
Lemma round53_large (n : Z) :
  (0 < n)%Z → (53 < Z.log2 n + 1)%Z →
  (2 ^ Z.log2 n <= round53 n <= 2 ^ (Z.log2 n + 1))%Z.
Proof.
  intros Hn Hb. unfold round53. rewrite Z.abs_eq by lia.
  destruct (Z.log2 n + 1 <=? 53)%Z eqn:Hb'; [apply Z.leb_le in Hb'; lia|].
  rewrite Z.sgn_pos, Z.mul_1_l by done.
  set (L := Z.log2 n) in *.
  destruct (Z.log2_spec n Hn) as [Hlo Hhi]. fold L in Hlo, Hhi.
  replace (Z.succ L) with (L + 1)%Z in Hhi by lia.
  set (ulp := (2 ^ (L + 1 - 53))%Z).
  assert (Hulp : (0 < ulp)%Z) by (apply Z.pow_pos_nonneg; lia).
  assert (HL : (2 ^ L = 2 ^ 52 * ulp)%Z).
  { unfold ulp. rewrite <- Z.pow_add_r by lia. f_equal. lia. }
  assert (HL1 : (2 ^ (L + 1) = 2 ^ 53 * ulp)%Z).
  { unfold ulp. rewrite <- Z.pow_add_r by lia. f_equal. lia. }
  pose proof (round_half_even_div_bounds n ulp ltac:(lia) Hulp) as [Hq1 Hq2].
  assert (Hq : (2 ^ 52 <= n / ulp < 2 ^ 53)%Z).
  { split.
    - apply Z.div_le_lower_bound; lia.
    - apply Z.div_lt_upper_bound; lia. }
  rewrite HL, HL1. split; apply Z.mul_le_mono_nonneg_r; lia.
Qed.

Lemma round53_ge_pow2 (n K : Z) :
  (0 <= K)%Z → (2 ^ K <= n)%Z → (2 ^ K <= round53 n)%Z.
Proof.
  intros HK Hn.
  assert (Hpos : (0 < n)%Z) by (pose proof (Z.pow_pos_nonneg 2 K); lia).
  destruct (decide (Z.log2 n + 1 <= 53)%Z) as [Hb|Hb].
  - rewrite round53_small; [done|]. split; [lia|].
    apply Z.log2_lt_pow2; lia.
  - destruct (round53_large n Hpos ltac:(lia)) as [Hlo _].
    assert (K <= Z.log2 n)%Z by (apply Z.log2_le_pow2; lia).
    assert (2 ^ K <= 2 ^ Z.log2 n)%Z by (apply Z.pow_le_mono_r; lia).
    lia.
Qed.

Lemma round53_le_pow2 (n K : Z) :
  (0 <= n < 2 ^ K)%Z → (0 <= round53 n <= 2 ^ K)%Z.
Proof.
  intros [H0 HK].
  destruct (decide (n = 0%Z)) as [->|Hn0].
  { rewrite round53_small by (split; [done | by apply Z.pow_pos_nonneg]).
    lia. }
  assert (Hpos : (0 < n)%Z) by lia.
  destruct (decide (Z.log2 n + 1 <= 53)%Z) as [Hb|Hb].
  - rewrite round53_small; [lia|]. split; [lia|].
    apply Z.log2_lt_pow2; lia.
  - destruct (round53_large n Hpos ltac:(lia)) as [Hlo Hhi].
    assert (0 <= K)%Z.
    { destruct (decide (0 <= K)%Z); [done|].
      rewrite Z.pow_neg_r in HK by lia. lia. }
    assert (Z.log2 n < K)%Z by (apply Z.log2_lt_pow2; lia).
    assert (2 ^ (Z.log2 n + 1) <= 2 ^ K)%Z by (apply Z.pow_le_mono_r; lia).
    pose proof (Z.pow_pos_nonneg 2 (Z.log2 n) ltac:(lia) (Z.log2_nonneg n)).
    lia.
Qed.

(** *** The loop *)

Lemma too_large_for_float_false (n e : Z) :
  (0 <= n < 2 ^ 1024)%Z → (1 <= e)%Z →
  too_large_for_float (round53 n) e = false.
Proof.
  intros Hn He. unfold too_large_for_float. apply Z.leb_gt.
  destruct (round53_le_pow2 n 1024 Hn) as [H0 H1].
  rewrite Z.abs_eq by done.
  assert (He2 : (2 <= 2 ^ e)%Z).
  { replace e with (1 + (e - 1))%Z by lia.
    rewrite Z.pow_add_r by lia.
    pose proof (Z.pow_pos_nonneg 2 (e - 1)). lia. }
  pose proof (Z.pow_pos_nonneg 2 1024 ltac:(lia) ltac:(lia)) as Hpos.
  clear Hn. revert H1 Hpos. generalize (2 ^ 1024)%Z. intros T H1 Hpos. nia.
Qed.

Lemma too_large_for_float_small (n : Z) :
  (0 <= n < 1024)%Z → too_large_for_float (round53 n) 0 = false.
Proof.
  intros Hn. unfold too_large_for_float. apply Z.leb_gt.
  rewrite round53_small by lia. rewrite Z.abs_eq, Z.pow_0_r, Z.mul_1_r by lia.
  assert (H : (2 ^ 10 <= 2 ^ 1024)%Z) by (apply Z.pow_le_mono_r; lia).
  change (2 ^ 10)%Z with 1024%Z in H.
  revert H. generalize (2 ^ 1024)%Z. intros T H. lia.
Qed.

Lemma size_loop_float (n : Z) (us : list string) : ∀ (j : Z),
  (1 <= j)%Z → (10 * (j + Z.of_nat (length us)) <= 53)%Z →
  (2 ^ (10 * j) <= n)%Z →
  ∃ i : nat, (i ≤ length us)%nat ∧
    size_loop us (PyFloat (round53 n) (10 * j)) =
      Ok (format_2f_float (round53 n) (10 * (j + Z.of_nat i)) +:+ " " +:+
          nth i (us ++ ["PB"]) "") ∧
    (2 ^ (10 * (j + Z.of_nat i)) <= n)%Z ∧
    ((i < length us)%nat → (n < 2 ^ (10 * (j + Z.of_nat i + 1)))%Z).
Proof.
  induction us as [|u rest IH]; intros j Hj Hlen Hn.
  - exists 0%nat. simpl. rewrite Z.add_0_r.
    split; [lia|]. split; [done|]. split; [done|]. lia.
  - simpl size_loop. simpl length in Hlen.
    assert (Hpow : (1024 * 2 ^ (10 * j) = 2 ^ (10 * (j + 1)))%Z).
    { replace (10 * (j + 1))%Z with (10 + 10 * j)%Z by lia.
      rewrite Z.pow_add_r by lia. done. }
    rewrite Hpow.
    destruct (decide (n < 2 ^ (10 * (j + 1)))%Z) as [Hlt|Hge].
    + exists 0%nat.
      assert (n < 2 ^ 53)%Z.
      { assert (2 ^ (10 * (j + 1)) <= 2 ^ 53)%Z
          by (apply Z.pow_le_mono_r; lia). lia. }
      assert (0 <= n)%Z by (pose proof (Z.pow_pos_nonneg 2 (10 * j)); lia).
      rewrite round53_small at 1 by lia.
      rewrite (proj2 (Z.ltb_lt _ _) Hlt). simpl. rewrite Z.add_0_r.
      split; [simpl; lia|]. split; [done|]. split; [exact Hn|]. intros _. exact Hlt.
    + assert (Hr : (2 ^ (10 * (j + 1)) <= round53 n)%Z)
        by (apply round53_ge_pow2; lia).
      rewrite (proj2 (Z.ltb_ge _ _) Hr). simpl.
      replace (10 * j + 10)%Z with (10 * (j + 1))%Z by lia.
      destruct (IH (j + 1)%Z) as (i & Hi & Heq & Hlo & Hhi); [lia|lia|lia|].
      exists (S i). rewrite Heq.
      replace (j + 1 + Z.of_nat i)%Z with (j + Z.of_nat (S i))%Z in * by lia.
      simpl nth. simpl length. split; [lia|]. split; [done|]. split; [done|].
      intros Hlt. apply Hhi. lia.
Qed.

Lemma size_loop_cons (u : string) (rest : list string) (x : number) :
  size_loop (u :: rest) x =
    if lt_1024 x
    then s ← format_2f x; Ok (s +:+ " " +:+ u)
    else x' ← truediv_1024 x; size_loop rest x'.
Proof. reflexivity. Qed.

Lemma format_2f_float_nearest (m e : Z) :
  (0 <= m)%Z → (0 <= e)%Z →
  ∃ h, format_2f_float m e = two_decimals h ∧
       nearest_hundredth h m (2 ^ e).
Proof.
  intros Hm He. exists (round_half_even_div (100 * Z.abs m) (2 ^ e)).
  split.
  - unfold format_2f_float.
    by rewrite (proj2 (Z.ltb_ge _ _) Hm).
  - unfold nearest_hundredth. rewrite (Z.abs_eq m) by done.
    apply round_half_even_div_nearest; [lia|].
    apply Z.pow_pos_nonneg; lia.
Qed.

(** The claim C6 fails as stated.  A count of [2^60] bytes (1024 PB) is
    rendered in PB with the value 1024.00, and no unit of the six scales
    it below 1024. *)
Lemma size_1024PB_not_below_1024 :
  human_readable_size (Some (2 ^ 60)%Z) = Ok (Some "1024.00 PB") ∧
  Forall (λ k : Z, ¬ (2 ^ 60 < 1024 * 1024 ^ k)%Z) [0; 1; 2; 3; 4; 5]%Z.
Proof.
  split; [reflexivity|]. repeat constructor; simpl; lia.
Qed.

(** C6 (as amended).  A byte count [0 <= n] (below [2^1024], beyond
    which Python cannot divide it into a double) is rendered as a number
    with two decimal places, a space and the unit [k] of B, KB, MB, GB,
    TB, PB such that the count is at least one unit unless the unit is
    B, and less than 1024 units unless the unit is PB; counts of 1024 PB
    and more stay in PB.  The number is a nearest hundredth of the
    double [round53 n / 1024^k], which is [n / 1024^k] itself for
    counts below [2^53]. *)
Theorem human_readable_size_unit (n : Z) :
  (0 <= n < 2 ^ 1024)%Z →
  ∃ (k : nat) (h : Z),
    (k ≤ 5)%nat ∧
    human_readable_size (Some n) =
      Ok (Some (two_decimals h +:+ " " +:+ nth k unit_names "")) ∧
    nearest_hundredth h (round53 n) (1024 ^ Z.of_nat k) ∧
    ((0 < k)%nat → (1024 ^ Z.of_nat k <= n)%Z) ∧
    ((k < 5)%nat → (n < 1024 * 1024 ^ Z.of_nat k)%Z) ∧
    ((n < 2 ^ 53)%Z → round53 n = n).
Proof.
  intros Hn.
  assert (Hsmall : (n < 2 ^ 53)%Z → round53 n = n)
    by (intros; apply round53_small; lia).
  assert (Hpow : ∀ j : Z, (0 <= j)%Z → (2 ^ (10 * j) = 1024 ^ j)%Z)
    by (intros j Hj; by rewrite Z.pow_mul_r by lia).
  unfold human_readable_size. rewrite size_loop_cons. cbn [lt_1024].
  destruct (n <? 1024)%Z eqn:Hlt.
  - apply Z.ltb_lt in Hlt. exists 0%nat.
    cbn [format_2f]. rewrite too_large_for_float_small by lia.
    assert (H53 : (n < 2 ^ 53)%Z) by lia.
    rewrite (Hsmall H53).
    destruct (format_2f_float_nearest n 0) as (h & -> & Hh); [lia|lia|].
    exists h. simpl. repeat split; [lia|done|lia|lia].
  - apply Z.ltb_ge in Hlt. cbn [truediv_1024].
    rewrite too_large_for_float_false by lia.
    cbn [mbind result_bind].
    destruct (size_loop_float n ["KB"; "MB"; "GB"; "TB"] 1)
      as (i & Hi & Heq & Hlo & Hhi); [lia|simpl; lia|simpl; lia|].
    change (10 * 1)%Z with 10%Z in Heq. rewrite Heq. clear Heq.
    simpl length in *.
    destruct (round53_le_pow2 n 1024 Hn) as [Hr0 _].
    destruct (format_2f_float_nearest (round53 n) (10 * (1 + Z.of_nat i)))
      as (h & -> & Hh); [done|lia|].
    exists (S i), h.
    rewrite Hpow in Hh, Hlo by lia.
    replace (1 + Z.of_nat i)%Z with (Z.of_nat (S i)) in * by lia.
    split; [lia|]. split.
    { reflexivity. }
    split; [done|]. split; [by intros _|]. split; [|done].
    intros Hk. specialize (Hhi ltac:(lia)).
    rewrite Hpow in Hhi by lia.
    replace (Z.of_nat (S i) + 1)%Z with (1 + Z.of_nat (S i))%Z in Hhi by lia.
    rewrite Z.pow_add_r in Hhi by lia. done.
Qed.

Lemma human_readable_size_unit_witness :
  (0 <= 1536 < 2 ^ 1024)%Z ∧
  ∃ (k : nat) (h : Z),
    (k ≤ 5)%nat ∧
    human_readable_size (Some 1536%Z) =
      Ok (Some (two_decimals h +:+ " " +:+ nth k unit_names "")) ∧
    nearest_hundredth h (round53 1536) (1024 ^ Z.of_nat k) ∧
    ((0 < k)%nat → (1024 ^ Z.of_nat k <= 1536)%Z) ∧
    ((k < 5)%nat → (1536 < 1024 * 1024 ^ Z.of_nat k)%Z) ∧
    ((1536 < 2 ^ 53)%Z → round53 1536 = 1536%Z).
Proof.
  assert (H : (0 <= 1536 < 2 ^ 1024)%Z).
  { split; [done|]. apply Z.ltb_lt. vm_compute. reflexivity. }
  split; [exact H|]. exact (human_readable_size_unit 1536 H).
Defined.

(** ** [get_file_info] and [scan_folder] on the example world *)

Example scan_data :
  scan_folder demo_world "/data" =
    Ok [("/data/a.txt", rec_a_txt); ("/data/gone.txt", rec_gone_txt)].
Proof. vm_compute. reflexivity. Qed.

Example scan_data_trailing_slash :
  scan_folder demo_world "/data/" = scan_folder demo_world "/data".
Proof. vm_compute. reflexivity. Qed.

Example scan_missing :
  scan_folder demo_world "/nowhere" =
    Raise (FileNotFoundError "Path not found: /nowhere").
Proof. vm_compute. reflexivity. Qed.

Example scan_vault :
  scan_folder demo_world "/vault" =
    Raise (OSError EACCES "[Errno 13] Permission denied: '/vault/key.pem'").
Proof. vm_compute. reflexivity. Qed.

(** ** Paths *)

Section pathlib_facts.
Import Pathlib.

Lemma split_slash_nonempty s : split_slash s ≠ [].
Proof.
  destruct s as [|c s]; simpl; [done|].
  case_decide; [done|]. by destruct (split_slash s).
Qed.

Lemma split_slash_plain f : has_slash f = false → split_slash f = [f].
Proof.
  induction f as [|c f IH]; simpl; [done|].
  intros [Hc Hf]%orb_false_elim. apply bool_decide_eq_false in Hc.
  rewrite decide_False by done. by rewrite IH.
Qed.

Lemma split_slash_app a b :
  split_slash (a +:+ String "/" b) = split_slash a ++ split_slash b.
Proof.
  induction a as [|c a IH]; simpl.
  - done.
  - case_decide; [by rewrite IH|]. rewrite IH.
    pose proof (split_slash_nonempty a). by destruct (split_slash a).
Qed.

Lemma split_slash_no_slash s :
  Forall (λ x, has_slash x = false) (split_slash s).
Proof.
  induction s as [|c s IH]; simpl; [by repeat constructor|].
  case_decide as Hc; [by constructor|].
  destruct (split_slash s) as [|h t]; [by repeat constructor; simpl;
    rewrite bool_decide_eq_false_2|].
  apply Forall_cons in IH as [Hh Ht]. constructor; [|done].
  simpl. by rewrite bool_decide_eq_false_2.
Qed.

Lemma split_slash_concat ps :
  ps ≠ [] → Forall (λ x, has_slash x = false) ps →
  split_slash (String.concat "/" ps) = ps.
Proof.
  induction ps as [|x ps IH]; [done|]. intros _ [Hx Hps]%Forall_cons.
  destruct ps as [|y ps].
  - by apply split_slash_plain.
  - change (String.concat "/" (x :: y :: ps))
      with (x +:+ String "/" (String.concat "/" (y :: ps))).
    rewrite split_slash_app, split_slash_plain by done.
    simpl app. f_equal. by apply IH.
Qed.

Lemma endswith_slash_app a :
  endswith_slash a = true → ∃ r, a = r +:+ "/".
Proof.
  induction a as [|c a IH]; simpl; [done|].
  destruct a as [|c' a'].
  - intros ->%bool_decide_eq_true. by exists "".
  - intros [r Hr]%IH. exists (String c r). simpl. by rewrite Hr.
Qed.

Lemma append_assoc_slash r f : (r +:+ "/") +:+ f = r +:+ String "/" f.
Proof.
  induction r as [|c r IH]; [done|].
  change (String c ((r +:+ "/") +:+ f) = String c (r +:+ String "/" f)).
  by rewrite IH.
Qed.

Lemma prefix_slash_plain f :
  has_slash f = false → String.prefix "/" f = false.
Proof.
  destruct f as [|c f]; [done|]. simpl has_slash.
  intros [Hc _]%orb_false_elim. apply bool_decide_eq_false in Hc.
  change (String.prefix "/" (String c f))
    with (if ascii_dec "/" c then String.prefix "" f else false).
  destruct (ascii_dec "/" c) as [<-|?]; [by destruct Hc | reflexivity].
Qed.

(** The parts of [Path(a) / f] end with [f] when [f] is the name of a
    directory entry. *)
Lemma joinpath_parts a f :
  plain_name f → ∃ ps, parts (joinpath a f) = ps ++ [f].
Proof.
  intros [Hpart Hf]. unfold joinpath, os_path_join.
  rewrite prefix_slash_plain by done.
  assert (Hfil : filter is_part [f] = [f])
    by (rewrite filter_cons, decide_True by done; done).
  destruct (bool_decide (a = "")) eqn:Ha.
  { apply bool_decide_eq_true in Ha. subst a. simpl.
    exists []. change ("" +:+ f) with f. by rewrite split_slash_plain. }
  simpl. destruct (endswith_slash a) eqn:He.
  - apply endswith_slash_app in He as [r ->].
    rewrite append_assoc_slash. simpl.
    rewrite split_slash_app, filter_app, (split_slash_plain f), Hfil by done.
    eauto.
  - simpl. change ("/" +:+ f) with (String "/" f).
    rewrite split_slash_app, filter_app, (split_slash_plain f), Hfil by done.
    eauto.
Qed.

Lemma joinpath_name a f : plain_name f → name (joinpath a f) = f.
Proof.
  intros Hf. destruct (joinpath_parts a f Hf) as [ps Hps].
  unfold name. rewrite Hps. apply last_last.
Qed.

Lemma of_str_normal s : normal (of_str s).
Proof.
  unfold normal, of_str. simpl. apply Forall_forall. intros x Hx.
  apply list_elem_of_filter in Hx as [Hpart Hx]. split; [done|].
  pose proof (split_slash_no_slash s) as Hall.
  rewrite Forall_forall in Hall. by apply Hall.
Qed.

Lemma filter_is_part_normal ps :
  Forall plain_name ps → filter is_part ps = ps.
Proof.
  induction 1 as [|x ps [Hx _] _ IH]; [done|].
  by rewrite filter_cons, decide_True, IH.
Qed.

(** Parsing the text of a path gives its parts back. *)
Lemma of_str_str_parts p :
  anchor p ∈ [""; "/"; "//"] → normal p → parts (of_str (str p)) = parts p.
Proof.
  intros Ha Hn. unfold of_str, str. cbn [parts].
  assert (Hnot : ∀ l, filter is_part ("" :: l) = filter is_part l).
  { intros l. rewrite filter_cons, decide_False; [done|].
    intros [? _]. done. }
  destruct (parts p) as [|x ps] eqn:Hparts.
  - repeat (apply elem_of_cons in Ha as [->|Ha]); [| | |by inversion Ha];
      reflexivity.
  - unfold normal in Hn. rewrite Hparts in Hn.
    assert (Hsplit : split_slash (String.concat "/" (x :: ps)) = x :: ps).
    { apply split_slash_concat; [done|].
      eapply Forall_impl; [exact Hn|]. by intros ? [_ ?]. }
    set (body := String.concat "/" (x :: ps)) in *.
    repeat (apply elem_of_cons in Ha as [->|Ha]); [| | |by inversion Ha].
    + change ("" +:+ body) with body. rewrite Hsplit.
      by apply filter_is_part_normal.
    + change ("/" +:+ body) with ("" +:+ String "/" body).
      rewrite split_slash_app, Hsplit.
      change (split_slash "" ++ x :: ps) with ("" :: x :: ps).
      rewrite Hnot. by apply filter_is_part_normal.
    + change ("//" +:+ body) with ("/" +:+ String "/" body).
      rewrite split_slash_app, Hsplit.
      change (split_slash "/" ++ x :: ps) with ("" :: "" :: x :: ps).
      rewrite !Hnot. by apply filter_is_part_normal.
Qed.

Lemma splitroot_anchor s : splitroot s ∈ [""; "/"; "//"].
Proof.
  unfold splitroot.
  repeat match goal with
         | |- context [match ?x with _ => _ end] => destruct x
         end; set_solver.
Qed.

Lemma of_str_str_name s : name (of_str (str (of_str s))) = name (of_str s).
Proof.
  unfold name. rewrite of_str_str_parts; [done| |apply of_str_normal].
  apply splitroot_anchor.
Qed.

End pathlib_facts.

(** ** Dictionaries, continued *)

Lemma keys_setitem {V} (d : dict V) k v k' :
  k' ∈ keys (setitem d k v) ↔ k' ∈ keys d ∨ k' = k.
Proof.
  unfold keys. induction d as [|[k0 v0] d IH]; simpl.
  - rewrite list_elem_of_singleton, elem_of_nil. tauto.
  - destruct (decide (k0 = k)) as [->|?]; simpl; rewrite !elem_of_cons;
      [|rewrite IH]; tauto.
Qed.

Lemma get_setitem {V} (d : dict V) k v k' :
  get (setitem d k v) k' = if decide (k = k') then Some v else get d k'.
Proof.
  induction d as [|[k0 v0] d IH]; simpl.
  - done.
  - destruct (decide (k0 = k)) as [->|Hne]; simpl.
    + by destruct (decide (k = k')).
    + rewrite IH. destruct (decide (k0 = k')) as [->|]; [|done].
      by rewrite decide_False.
Qed.

(** ** [get_file_info] *)

Lemma Path_is_file_Raise w path e :
  Path_is_file w path = Raise e →
  ∃ n msg, e = OSError n msg ∧ ignore_error e = false ∧
           os_stat w (Pathlib.str path) = inl (StatOSError n msg).
Proof.
  unfold Path_is_file, Path_stat.
  destruct (os_stat w (Pathlib.str path)) as [[n msg|msg]|s]; simpl;
    [|done..].
  destruct (bool_decide _) eqn:Hi; [done|]. intros [= <-]. eauto.
Qed.

(** X5.  When [stat] fails with an error [is_file] reads as "no such
    file", the record of the failure is returned. *)
Lemma get_file_info_stat_fails w path se :
  os_stat w (Pathlib.str path) = inl se →
  Path_is_file w path = Ok false →
  get_file_info w path = Ok (error_record path (exn_of_stat_error se)).
Proof.
  intros Hs Hf. unfold get_file_info, Path_stat. rewrite Hs. simpl.
  by rewrite Hf.
Qed.

(** What [get_file_info] does in every case: it raises exactly when
    [is_file] does. *)
Lemma get_file_info_cases w path :
  match Path_is_file w path with
  | Ok _ => ∃ r, get_file_info w path = Ok r
  | Raise e => get_file_info w path = Raise e
  end.
Proof.
  unfold get_file_info.
  destruct (Path_is_file w path) as [b|e] eqn:Hf.
  - destruct (Path_stat w path) as [s|e]; simpl; [|eauto].
    destruct (human_readable_size (Some (st_size s))) as [sz|e]; simpl; eauto.
  - destruct (Path_is_file_Raise _ _ _ Hf) as (n & msg & -> & _ & Hs).
    unfold Path_stat. by rewrite Hs.
Qed.

Lemma get_file_info_fields w path r :
  get_file_info w path = Ok r →
  name r = Pathlib.name path ∧ relpath r = Pathlib.str path.
Proof.
  unfold get_file_info.
  destruct (Path_stat w path) as [s|e]; simpl.
  - destruct (human_readable_size (Some (st_size s))) as [sz|e]; simpl;
      destruct (Path_is_file w path) as [b|e']; simpl; intros [= <-]; done.
  - destruct (Path_is_file w path) as [b|e']; simpl; intros [= <-]; done.
Qed.

(** Every record [get_file_info] returns is the record of a failed
    [stat] or of a successful one. *)
Lemma get_file_info_record_kinds w path r :
  get_file_info w path = Ok r → stat_failed r ∨ stat_ok r.
Proof.
  unfold get_file_info.
  destruct (Path_stat w path) as [s|e]; simpl.
  - unfold human_readable_size.
    destruct (size_loop _ _) as [sz|e]; simpl;
      destruct (Path_is_file w path) as [b|e']; simpl; intros [= <-].
    + right. split; simpl; eauto.
    + left. repeat split; simpl; eauto.
  - destruct (Path_is_file w path) as [b|e']; simpl; intros [= <-].
    left. repeat split; simpl; eauto.
Qed.


(** The claim C5 fails on the code.  The attributes of [/vault/key.pem]
    cannot be read ([stat] is refused with [EACCES]); the handler of
    [get_file_info] calls [path.is_file()], which raises the same error
    again, and the error leaves [get_file_info]. *)
Lemma get_file_info_permission_denied :
  os_stat demo_world "/vault/key.pem" =
    inl (StatOSError EACCES "[Errno 13] Permission denied: '/vault/key.pem'") ∧
  get_file_info demo_world (Pathlib.of_str "/vault/key.pem") =
    Raise (OSError EACCES "[Errno 13] Permission denied: '/vault/key.pem'").
Proof. split; vm_compute; reflexivity. Qed.

(** Where the claim holds: a file that vanished ([ENOENT]) gives the
    record of the failure. *)
Example get_file_info_gone :
  get_file_info demo_world (Pathlib.of_str "/data/gone.txt") = Ok rec_gone_txt.
Proof. vm_compute. reflexivity. Qed.

Lemma get_file_info_stat_fails_witness :
  os_stat demo_world (Pathlib.str (Pathlib.of_str "/data/gone.txt")) =
    inl (StatOSError ENOENT
           "[Errno 2] No such file or directory: '/data/gone.txt'") ∧
  Path_is_file demo_world (Pathlib.of_str "/data/gone.txt") = Ok false ∧
  get_file_info demo_world (Pathlib.of_str "/data/gone.txt") =
    Ok (error_record (Pathlib.of_str "/data/gone.txt")
          (exn_of_stat_error
             (StatOSError ENOENT
                "[Errno 2] No such file or directory: '/data/gone.txt'"))).
Proof.
  assert (Hs : os_stat demo_world
                 (Pathlib.str (Pathlib.of_str "/data/gone.txt")) =
               inl (StatOSError ENOENT
                      "[Errno 2] No such file or directory: '/data/gone.txt'"))
    by (vm_compute; reflexivity).
  assert (Hf : Path_is_file demo_world (Pathlib.of_str "/data/gone.txt")
               = Ok false)
    by (vm_compute; reflexivity).
  split; [exact Hs|]. split; [exact Hf|].
  exact (get_file_info_stat_fails demo_world _ _ Hs Hf).
Defined.

(** ** [scan_folder] *)

(** The keys the inner loop leaves: the ones it found, and one for each
    file of the directory that is not a lock file. *)
Lemma scan_files_keys w root files : ∀ res res',
  scan_files w root files res = Ok res' →
  ∀ k, k ∈ keys res' ↔
       k ∈ keys res ∨
       ∃ fname, fname ∈ files ∧ is_lock_file fname = false ∧
                k = scan_key root fname.
Proof.
  induction files as [|f files IH]; intros res res' Hscan k; simpl in Hscan.
  - injection Hscan as <-. split; [auto|]. intros [?|(f & Hf & _)]; [done|].
    by apply elem_of_nil in Hf.
  - destruct (is_lock_file f) eqn:Hlock.
    + rewrite (IH _ _ Hscan). split; intros [?|(f' & Hf' & Hl & Hk)]; auto.
      * right. exists f'. rewrite elem_of_cons. auto.
      * apply elem_of_cons in Hf' as [->|Hf']; [congruence|]. eauto.
    + destruct (get_file_info w (Pathlib.joinpath root f)) as [info|e];
        simpl in Hscan; [|done].
      rewrite (IH _ _ Hscan), keys_setitem. fold (scan_key root f).
      split.
      * intros [[? | ->]|(f' & Hf' & Hl & Hk)]; auto.
        -- right. exists f. rewrite elem_of_cons. auto.
        -- right. exists f'. rewrite elem_of_cons. auto.
      * intros [?|(f' & Hf' & Hl & Hk)]; auto.
        apply elem_of_cons in Hf' as [->|Hf']; [auto|]. eauto.
Qed.

Lemma scan_walk_keys w walk : ∀ res res',
  scan_walk w walk res = Ok res' →
  ∀ k, k ∈ keys res' ↔
       k ∈ keys res ∨
       ∃ root dirs files fname,
         (root, dirs, files) ∈ walk ∧ fname ∈ files ∧
         is_lock_file fname = false ∧ k = scan_key root fname.
Proof.
  induction walk as [|[[root dirs] files] walk IH]; intros res res' Hscan k;
    simpl in Hscan.
  - injection Hscan as <-. split; [auto|].
    intros [?|(r & d & f & fn & Hin & _)]; [done|].
    by apply elem_of_nil in Hin.
  - destruct (scan_files w root files res) as [res1|e] eqn:H1;
      simpl in Hscan; [|done].
    rewrite (IH _ _ Hscan), (scan_files_keys _ _ _ _ _ H1). split.
    + intros [[?|(fn & Hfn & Hl & ->)]|(r & d & f & fn & Hin & Hfn & Hl & ->)];
        auto.
      * right. exists root, dirs, files, fn. rewrite elem_of_cons. auto.
      * right. exists r, d, f, fn. rewrite elem_of_cons. auto.
    + intros [?|(r & d & f & fn & Hin & Hfn & Hl & ->)]; auto.
      apply elem_of_cons in Hin as [[= -> -> ->]|Hin].
      * left. right. eauto.
      * right. exists r, d, f, fn. auto.
Qed.

Lemma scan_files_consistent w root files : ∀ res res',
  scan_files w root files res = Ok res' →
  key_consistent res → key_consistent res'.
Proof.
  induction files as [|f files IH]; intros res res' Hscan Hres;
    simpl in Hscan.
  - by injection Hscan as <-.
  - destruct (is_lock_file f); [by eapply IH|].
    destruct (get_file_info w (Pathlib.joinpath root f)) as [info|e] eqn:Hg;
      simpl in Hscan; [|done].
    eapply IH; [exact Hscan|].
    intros k r. rewrite get_setitem. case_decide as Hk.
    + intros [= <-]. subst k.
      destruct (get_file_info_fields _ _ _ Hg) as [-> ->].
      split; [done|]. unfold Pathlib.joinpath.
      by rewrite of_str_str_name.
    + apply Hres.
Qed.

Lemma scan_walk_consistent w walk : ∀ res res',
  scan_walk w walk res = Ok res' →
  key_consistent res → key_consistent res'.
Proof.
  induction walk as [|[[root dirs] files] walk IH]; intros res res' Hscan Hres;
    simpl in Hscan.
  - by injection Hscan as <-.
  - destruct (scan_files w root files res) as [res1|e] eqn:H1;
      simpl in Hscan; [|done].
    eapply IH; [exact Hscan|]. by eapply scan_files_consistent.
Qed.





(** What a successful scan returns, seen from [scan_folder]. *)
Lemma scan_folder_Ok w folder_path m :
  scan_folder w folder_path = Ok m →
  Path_exists w (Pathlib.of_str folder_path) = Ok true ∧
  scan_walk w (os_walk w (Pathlib.str (Pathlib.of_str folder_path))) empty
    = Ok m.
Proof.
  unfold scan_folder.
  destruct (Path_exists w (Pathlib.of_str folder_path)) as [[]|e]; simpl;
    done.
Qed.

Lemma scan_folder_keys w folder_path m :
  scan_folder w folder_path = Ok m →
  ∀ k, k ∈ keys m ↔
       ∃ root fname,
         encountered w (Pathlib.str (Pathlib.of_str folder_path)) root fname ∧
         is_lock_file fname = false ∧ k = scan_key root fname.
Proof.
  intros [_ Hwalk]%scan_folder_Ok k.
  rewrite (scan_walk_keys _ _ _ _ Hwalk). unfold encountered. split.
  - intros [Hk|(root & dirs & files & fname & ? & ? & ? & ?)].
    + by apply elem_of_nil in Hk.
    + exists root, fname. eauto 10.
  - intros (root & fname & (dirs & files & ? & ?) & ? & ?).
    right. exists root, dirs, files, fname. auto.
Qed.

Lemma scan_key_name root fname :
  Pathlib.plain_name fname →
  Pathlib.name (Pathlib.of_str (scan_key root fname)) = fname.
Proof.
  intros Hf. unfold scan_key, Pathlib.joinpath.
  rewrite of_str_str_name. by apply joinpath_name.
Qed.

Lemma encountered_plain w top root fname :
  walk_names_plain w top → encountered w top root fname →
  Pathlib.plain_name fname.
Proof.
  intros Hall (dirs & files & Hin & Hf). unfold walk_names_plain in Hall.
  rewrite Forall_forall in Hall. specialize (Hall _ Hin). simpl in Hall.
  rewrite Forall_forall in Hall. by apply Hall.
Qed.




Example scan_folder_not_found_example :
  Path_exists demo_world (Pathlib.of_str "/nowhere") = Ok false ∧
  scan_folder demo_world "/nowhere" =
    Raise (FileNotFoundError "Path not found: /nowhere").
Proof. split; vm_compute; reflexivity. Qed.

(** The claim C9 fails on the code.  [/vault] exists, and [os.walk]
    reports its file [key.pem], whose name does not start with [~$]; the
    attributes of the file cannot be read ([EACCES]), [get_file_info]
    raises (the defect of C5), and the scan raises with it: there is no
    mapping, and no entry for the file. *)
Lemma scan_folder_unreadable_file :
  Path_exists demo_world (Pathlib.of_str "/vault") = Ok true ∧
  encountered demo_world (Pathlib.str (Pathlib.of_str "/vault"))
    "/vault" "key.pem" ∧
  is_lock_file "key.pem" = false ∧
  get_file_info demo_world (Pathlib.joinpath "/vault" "key.pem") =
    Raise (OSError EACCES "[Errno 13] Permission denied: '/vault/key.pem'") ∧
  scan_folder demo_world "/vault" =
    Raise (OSError EACCES "[Errno 13] Permission denied: '/vault/key.pem'").
Proof.
  split; [vm_compute; reflexivity|]. split.
  { exists [], ["key.pem"].
    split; [apply list_elem_of_here | apply list_elem_of_here]. }
  repeat split; vm_compute; reflexivity.
Qed.

(** X22.  In the dictionary a scan returns, a file that [os.walk]
    reported is missing exactly when its name starts with [~$].  The
    names [os.walk] reports are names of directory entries. *)
Theorem scan_folder_skips_lock_files (w : World) (folder_path : string)
    (m : dict FileRecord) (root fname : string) :
  scan_folder w folder_path = Ok m →
  walk_names_plain w (Pathlib.str (Pathlib.of_str folder_path)) →
  encountered w (Pathlib.str (Pathlib.of_str folder_path)) root fname →
  (scan_key root fname ∉ keys m ↔ is_lock_file fname = true).
Proof.
  intros Hscan Hplain Henc.
  pose proof (scan_folder_keys _ _ _ Hscan (scan_key root fname)) as Hkeys.
  split.
  - intros Hnot. destruct (is_lock_file fname) eqn:Hlock; [done|].
    exfalso. apply Hnot, Hkeys. eauto.
  - intros Hlock [root' [fname' (Henc' & Hlock' & Hk)]]%Hkeys.
    assert (fname' = fname); [|congruence].
    rewrite <- (scan_key_name root fname),
            <- (scan_key_name root' fname'), Hk;
      eauto using encountered_plain.
Qed.

Lemma scan_folder_skips_lock_files_witness :
  scan_folder demo_world "/data" =
    Ok [("/data/a.txt", rec_a_txt); ("/data/gone.txt", rec_gone_txt)] ∧
  walk_names_plain demo_world (Pathlib.str (Pathlib.of_str "/data")) ∧
  encountered demo_world (Pathlib.str (Pathlib.of_str "/data"))
    "/data" "~$lock.tmp" ∧
  (scan_key "/data" "~$lock.tmp" ∉
     keys [("/data/a.txt", rec_a_txt); ("/data/gone.txt", rec_gone_txt)] ↔
   is_lock_file "~$lock.tmp" = true).
Proof.
  assert (Hs : scan_folder demo_world "/data" =
    Ok [("/data/a.txt", rec_a_txt); ("/data/gone.txt", rec_gone_txt)])
    by (vm_compute; reflexivity).
  assert (Hp : walk_names_plain demo_world
                 (Pathlib.str (Pathlib.of_str "/data")))
    by (apply (bool_decide_unpack (walk_names_plain _ _));
        vm_compute; exact I).
  assert (He : encountered demo_world (Pathlib.str (Pathlib.of_str "/data"))
                 "/data" "~$lock.tmp").
  { exists [], ["a.txt"; "~$lock.tmp"; "gone.txt"].
    split; [apply list_elem_of_here | apply list_elem_of_further, list_elem_of_here]. }
  split; [exact Hs|]. split; [exact Hp|]. split; [exact He|].
  exact (scan_folder_skips_lock_files demo_world "/data" _ "/data"
           "~$lock.tmp" Hs Hp He).
Defined.

(** C10.  In the dictionary a scan returns, the record stored under a
    key [p] has [relpath] [p], and its [name] is the name of the path
    [p] (its last part); this holds for the records of failed [stat]s
    as for the others. *)
Theorem scan_folder_key_consistent (w : World) (folder_path : string)
    (m : dict FileRecord) (p : string) (r : FileRecord) :
  scan_folder w folder_path = Ok m → get m p = Some r →
  relpath r = p ∧ name r = Pathlib.name (Pathlib.of_str p).
Proof.
  intros [_ Hwalk]%scan_folder_Ok Hget.
  eapply (scan_walk_consistent _ _ _ _ Hwalk); [|exact Hget].
  intros k r'. done.
Qed.

Lemma scan_folder_key_consistent_witness :
  scan_folder demo_world "/data" =
    Ok [("/data/a.txt", rec_a_txt); ("/data/gone.txt", rec_gone_txt)] ∧
  get [("/data/a.txt", rec_a_txt); ("/data/gone.txt", rec_gone_txt)]
    "/data/gone.txt" = Some rec_gone_txt ∧
  relpath rec_gone_txt = "/data/gone.txt" ∧
  name rec_gone_txt = Pathlib.name (Pathlib.of_str "/data/gone.txt").
Proof.
  assert (Hs : scan_folder demo_world "/data" =
    Ok [("/data/a.txt", rec_a_txt); ("/data/gone.txt", rec_gone_txt)])
    by (vm_compute; reflexivity).
  split; [exact Hs|]. split; [reflexivity|].
  exact (scan_folder_key_consistent demo_world "/data" _ "/data/gone.txt"
           rec_gone_txt Hs eq_refl).
Defined.

(** ** [safe_name_hash] and the JSON text *)

Example sha1_empty :
  safe_name_hash "" = "da39a3ee5e6b4b0d3255bfef95601890afd80709".
Proof. vm_compute. reflexivity. Qed.

Example sha1_abc :
  safe_name_hash "abc" = "a9993e364706816aba3e25717850c26c9cd0d89d".
Proof. vm_compute. reflexivity. Qed.

Example sha1_two_blocks :
  safe_name_hash "abcdbcdecdefdefgefghfghighijhijkijkljklmklmnlmnomnopnopq"
  = "84983e441c3bd26ebaae4aa1f95129e5e54670f1".
Proof. vm_compute. reflexivity. Qed.

Example sha1_data :
  safe_name_hash "/data" = "9112fb2807d43dd27fe08840179971e4632a7f2b".
Proof. vm_compute. reflexivity. Qed.

(** Two spellings of one folder are two folder identities, with a
    file each. *)
Example baseline_file_trailing_separator :
  baseline_file "/data" =
    ".folder_forensics_baselines/9112fb2807d43dd27fe08840179971e4632a7f2b.json"
  ∧
  baseline_file "/data/" =
    ".folder_forensics_baselines/ecb325e6267af2be5c28f5beeeba7f4b7df07494.json".
Proof. split; vm_compute; reflexivity. Qed.

Example json_escapes :
  Json.encode_str
    (plain_text "g'x\.txt" +:+ String "009"%char (String "001"%char "")
       +:+ plain_text "|")
  = plain_text "'g\'x\\.txt\t\u0001\n'".
Proof. vm_compute. reflexivity. Qed.

Example json_no_files :
  Json.dumps (baseline_json "/data" "x" []) =
    plain_text "{|  'folder': '/data',|  'created_at': 'x',|  'files': {}|}".
Proof. vm_compute. reflexivity. Qed.

Example json_baseline_2024 :
  Json.dumps (baseline_json "/data" "2024-01-02T03:04:05.000006" snap_2024)
  = baseline_text_2024.
Proof. vm_compute. reflexivity. Qed.

(** ** [save_baseline_for] *)

Example save_baseline_2024 :
  save_baseline_for AllWritten "2024-01-02T03:04:05.000006" "/data"
    snap_2024 ∅ = (Ok baseline_file_data, disk_2024).
Proof. vm_compute. reflexivity. Qed.

(** X4.  A save that meets no error returns the path of the record's
    file and leaves the record in it, in place of what it held; no other
    file changes. *)
Lemma save_baseline_for_success now path_str data (disk : Disk) :
  save_baseline_for AllWritten now path_str data disk =
    (Ok (baseline_file path_str),
     <[baseline_file path_str :=
         Json.dumps (baseline_json path_str now data)]> disk).
Proof.
  unfold save_baseline_for, io_bind, open_w, write, io_ret. simpl.
  fold (baseline_file path_str).
  rewrite lookup_insert_eq. simpl. by rewrite insert_insert_eq.
Qed.

(** The claim C4 fails as stated.  The disk holds the baseline of
    [/data]; the next save of [/data] runs out of space after twelve
    characters.  The save fails, and the file of [/data] now holds
    those twelve characters: the stored baseline is gone, and what is in
    its place is the beginning of a record. *)
Lemma save_failure_loses_baseline :
  disk_2024 !! baseline_file "/data" = Some baseline_text_2024 ∧
  save_baseline_for (WriteFails 12 disk_full) "2024-02-01T00:00:00.000000"
    "/data" snap_later disk_2024 =
    (Raise disk_full,
     {[ baseline_file "/data" := plain_text "{|  'folder'" ]}) ∧
  plain_text "{|  'folder'" ≠ baseline_text_2024.
Proof.
  split; [vm_compute; reflexivity|]. split; [vm_compute; reflexivity|].
  vm_compute. discriminate.
Qed.

(** C4 (as amended).  A save is not atomic.  When it fails, the files of
    the other folder identities are as they were.  Either opening the
    file failed, and the disk is unchanged; or a write failed, and the
    file of this folder identity holds the characters of the new record
    written before the error, in place of whatever it held. *)
Theorem save_baseline_for_failure (io : io_outcome) (now path_str : string)
    (data : dict FileRecord) (disk disk' : Disk) (e : exn) :
  save_baseline_for io now path_str data disk = (Raise e, disk') →
  (∀ f, f ≠ baseline_file path_str → disk' !! f = disk !! f) ∧
  ((io = OpenFails e ∧ disk' = disk) ∨
   (∃ n, io = WriteFails n e ∧
         disk' !! baseline_file path_str =
           Some (String.substring 0 n
                   (Json.dumps (baseline_json path_str now data))))).
Proof.
  unfold save_baseline_for, io_bind, open_w, write, io_ret.
  fold (baseline_file path_str).
  destruct io as [|e0|n e0]; simpl.
  - rewrite lookup_insert_eq. simpl. done.
  - intros [= <- <-]. split; [done|]. by left.
  - rewrite lookup_insert_eq. simpl. intros [= <- <-]. split.
    + intros f Hf. by rewrite !lookup_insert_ne.
    + right. exists n. split; [done|]. by rewrite lookup_insert_eq.
Qed.

Lemma save_baseline_for_failure_witness :
  save_baseline_for (WriteFails 12 disk_full) "2024-02-01T00:00:00.000000"
    "/data" snap_later disk_2024 =
    (Raise disk_full,
     {[ baseline_file "/data" := plain_text "{|  'folder'" ]}) ∧
  (∀ f, f ≠ baseline_file "/data" →
        ({[ baseline_file "/data" := plain_text "{|  'folder'" ]} : Disk) !! f
        = disk_2024 !! f) ∧
  ((WriteFails 12 disk_full = OpenFails disk_full ∧
    ({[ baseline_file "/data" := plain_text "{|  'folder'" ]} : Disk)
    = disk_2024) ∨
   (∃ n, WriteFails 12 disk_full = WriteFails n disk_full ∧
         ({[ baseline_file "/data" := plain_text "{|  'folder'" ]} : Disk)
           !! baseline_file "/data" =
           Some (String.substring 0 n
                   (Json.dumps
                      (baseline_json "/data" "2024-02-01T00:00:00.000000"
                         snap_later))))).
Proof.
  assert (H : save_baseline_for (WriteFails 12 disk_full)
                "2024-02-01T00:00:00.000000" "/data" snap_later disk_2024 =
              (Raise disk_full,
               {[ baseline_file "/data" := plain_text "{|  'folder'" ]}))
    by (vm_compute; reflexivity).
  split; [exact H|].
  exact (save_baseline_for_failure _ _ _ _ _ _ _ H).
Defined.

(** ** [compare]: symmetry, counts, and what it reads *)

Lemma differs_sym o n : differs o n = differs n o.
Proof.
  unfold differs. f_equal; apply bool_decide_ext; split; intros H E;
    by apply H.
Qed.

Lemma changed_in_sym old new p : changed_in old new p = changed_in new old p.
Proof.
  unfold changed_in. destruct (get old p), (get new p); try done.
  apply differs_sym.
Qed.

Lemma common_paths_sym old new : common_paths old new = common_paths new old.
Proof. unfold common_paths. by rewrite (comm_L (∩) (key_set old)). Qed.

(** X6.  Comparing in the other direction exchanges [added] and
    [deleted] and leaves [changed] and [unchanged] as they are. *)
Theorem compare_swap (old new : dict FileRecord) :
  ∃ r, compare old new = Ok r ∧ compare new old = Ok (swap_result r).
Proof.
  eexists. split; [apply compare_eq|].
  rewrite compare_eq. unfold swap_result. simpl.
  rewrite (common_paths_sym new old). do 2 f_equal.
  - apply list_filter_iff. intros p. by rewrite changed_in_sym.
  - apply list_filter_iff. intros p. by rewrite changed_in_sym.
Qed.

Lemma length_sorted l : length (sorted l) = length l.
Proof. unfold sorted. by rewrite merge_sort_Permutation. Qed.

Lemma length_changed_unchanged old new :
  length (filter (λ p, changed_in old new p = true) (common_paths old new)) +
  length (filter (λ p, ¬ changed_in old new p = true) (common_paths old new))
  = base.size (key_set old ∩ key_set new).
Proof.
  rewrite <- length_app, filter_app_complement.
  unfold common_paths. by rewrite length_sorted.
Qed.

Lemma size_difference_intersection (X Y : gset string) :
  base.size (X ∖ Y) + base.size (X ∩ Y) = base.size X.
Proof.
  rewrite <- size_union.
  - f_equal. apply set_eq. intros p.
    rewrite elem_of_union, elem_of_difference, elem_of_intersection.
    destruct (decide (p ∈ Y)); tauto.
  - intros p. rewrite elem_of_difference, elem_of_intersection. tauto.
Qed.

(** X7.  The numbers of a comparison add up: the added, changed and
    unchanged paths are as many as the keys of the new dictionary, the
    deleted, changed and unchanged ones as many as the keys of the old
    one. *)
Theorem compare_counts (old new : dict FileRecord) :
  ∃ r, compare old new = Ok r ∧
    length (added r) + length (changed r) + length (unchanged r)
      = base.size (key_set new) ∧
    length (deleted r) + length (changed r) + length (unchanged r)
      = base.size (key_set old).
Proof.
  eexists. split; [apply compare_eq|]. simpl.
  rewrite !length_sorted. rewrite <- !Nat.add_assoc, length_changed_unchanged.
  change (length (elements ?X)) with (base.size X).
  split; [|apply size_difference_intersection].
  rewrite (comm_L (∩) (key_set old)). apply size_difference_intersection.
Qed.

Lemma diff_view_keys (d d' : dict FileRecord) :
  (∀ p, diff_view d p = diff_view d' p) → key_set d = key_set d'.
Proof.
  intros Hv. apply set_eq. intros p.
  rewrite !elem_of_key_set, <- !get_Some_keys.
  specialize (Hv p). unfold diff_view in Hv.
  destruct (get d p), (get d' p); simpl in Hv; try done; split; eauto.
Qed.

Lemma diff_view_changed_in (old old' new new' : dict FileRecord) p :
  diff_view old p = diff_view old' p → diff_view new p = diff_view new' p →
  changed_in old new p = changed_in old' new' p.
Proof.
  unfold diff_view, changed_in.
  destruct (get old p) as [o|], (get old' p) as [o'|]; simpl; try done;
    destruct (get new p) as [n|], (get new' p) as [n'|]; simpl; try done.
  intros [= So Mo] [= Sn Mn]. unfold differs. by rewrite So, Mo, Sn, Mn.
Qed.

(** X8.  [compare] reads nothing of its dictionaries but their keys and
    each record's [size] and [modified]: two pairs of dictionaries that
    agree on those give the same result, whatever the order of their
    entries and the other fields of their records. *)
Theorem compare_reads_only (old old' new new' : dict FileRecord) :
  (∀ p, diff_view old p = diff_view old' p) →
  (∀ p, diff_view new p = diff_view new' p) →
  compare old new = compare old' new'.
Proof.
  intros Ho Hn. rewrite !compare_eq. unfold common_paths.
  rewrite (diff_view_keys _ _ Ho), (diff_view_keys _ _ Hn).
  do 2 f_equal.
  - apply list_filter_iff. intros p.
    by rewrite (diff_view_changed_in old old' new new' p).
  - apply list_filter_iff. intros p.
    by rewrite (diff_view_changed_in old old' new new' p).
Qed.

Lemma compare_reads_only_witness :
  compare snap_2024 snap_later = compare snap_read snap_later.
Proof.
  apply compare_reads_only; intros p; unfold diff_view; simpl;
    by case_decide.
Defined.

(** ** The name of a baseline file *)

Lemma list_ascii_of_string_app a b :
  list_ascii_of_string (a +:+ b)
  = list_ascii_of_string a ++ list_ascii_of_string b.
Proof.
  induction a as [|c a IH]; [done|].
  change (String c a +:+ b) with (String c (a +:+ b)). simpl. by rewrite IH.
Qed.

Lemma length_list_ascii_of_string s :
  length (list_ascii_of_string s) = String.length s.
Proof. induction s as [|c s IH]; simpl; [done|]. by rewrite IH. Qed.

Lemma hex_digit_is_hex d : (0 ≤ d < 16)%Z → is_hex_digit (SHA1.hex_digit d).
Proof.
  intros Hd. unfold is_hex_digit, SHA1.hex_digit.
  apply list_elem_of_In, nth_In. simpl. lia.
Qed.

Lemma hex_word_hex x :
  length (list_ascii_of_string (SHA1.hex_word x)) = 8 ∧
  Forall is_hex_digit (list_ascii_of_string (SHA1.hex_word x)).
Proof.
  unfold SHA1.hex_word. rewrite list_ascii_of_string_of_list_ascii.
  split; [done|]. apply Forall_fmap, Forall_forall. intros i _. simpl.
  apply hex_digit_is_hex. change 15%Z with (Z.ones 4).
  rewrite Z.land_ones by lia. apply Z.mod_pos_bound. lia.
Qed.

Lemma hexdigest_hex s :
  length (list_ascii_of_string (SHA1.hexdigest s)) = 40 ∧
  Forall is_hex_digit (list_ascii_of_string (SHA1.hexdigest s)).
Proof.
  unfold SHA1.hexdigest.
  destruct (SHA1.digest _) as [[[[h0 h1] h2] h3] h4].
  rewrite !list_ascii_of_string_app, !length_app, !Forall_app.
  pose proof (hex_word_hex h0) as [-> ?]. pose proof (hex_word_hex h1) as [-> ?].
  pose proof (hex_word_hex h2) as [-> ?]. pose proof (hex_word_hex h3) as [-> ?].
  pose proof (hex_word_hex h4) as [-> ?]. done.
Qed.

(** X9.  Whatever the folder string, its key is 40 characters, each a
    digit of lower-case hexadecimal. *)
Theorem safe_name_hash_hex (path_str : string) :
  String.length (safe_name_hash path_str) = 40 ∧
  Forall is_hex_digit (list_ascii_of_string (safe_name_hash path_str)).
Proof.
  unfold safe_name_hash. rewrite <- length_list_ascii_of_string.
  apply hexdigest_hex.
Qed.

Section baseline_file_facts.
Import Pathlib.

Lemma has_slash_elem_of s :
  has_slash s = false ↔ "/"%char ∉ list_ascii_of_string s.
Proof.
  induction s as [|c s IH]; simpl.
  - split; [intros _ H; inversion H|done].
  - rewrite orb_false_iff, bool_decide_eq_false, IH, not_elem_of_cons.
    split; intros [? ?]; split; congruence.
Qed.

Lemma hash_json_plain path_str :
  plain_name (safe_name_hash path_str +:+ ".json").
Proof.
  pose proof (hexdigest_hex path_str) as [Hlen Hhex].
  fold (safe_name_hash path_str) in Hlen, Hhex.
  assert (Hne : ∀ s, String.length s < 5 →
    safe_name_hash path_str +:+ ".json" ≠ s).
  { intros s Hs E. apply (f_equal list_ascii_of_string) in E.
    apply (f_equal length) in E.
    rewrite list_ascii_of_string_app, length_app, Hlen,
      (length_list_ascii_of_string s) in E. simpl in E. lia. }
  split; [split; apply Hne; simpl; lia|].
  apply has_slash_elem_of. rewrite list_ascii_of_string_app, elem_of_app.
  intros [H|H].
  - rewrite Forall_forall in Hhex. apply Hhex in H.
    unfold is_hex_digit in H. simpl in H.
    repeat (apply elem_of_cons in H as [H|H]; [done|]). inversion H.
  - simpl in H. repeat (apply elem_of_cons in H as [H|H]; [done|]).
    inversion H.
Qed.

(** X10.  Whatever the folder string, its baseline is a file directly
    inside [BASE_DIR], named by the key and [.json]: the folder string
    chooses no directory. *)
Theorem baseline_file_in_BASE_DIR (path_str : string) :
  of_str (baseline_file path_str)
  = {| anchor := ""; parts := [BASE_DIR; safe_name_hash path_str +:+ ".json"] |}.
Proof.
  pose proof (hash_json_plain path_str) as [Hpart Hslash].
  unfold of_str, baseline_file. f_equal.
  change ("/" +:+ ?x) with (String "/" x).
  rewrite split_slash_app, (split_slash_plain BASE_DIR) by done.
  rewrite (split_slash_plain _ Hslash). simpl.
  rewrite !filter_cons, decide_True by done.
  by rewrite decide_True by done.
Qed.

End baseline_file_facts.

(** ** [pathlib]: a path read back from its text *)

Section pathlib_round_trip.
Import Pathlib.

Lemma splitroot_not_slash c t :
  c ≠ "/"%char →
  splitroot (String c t) = "" ∧
  splitroot (String "/" (String c t)) = "/" ∧
  splitroot (String "/" (String "/" (String c t))) = "//".
Proof.
  intros Hc. destruct c as [b0 b1 b2 b3 b4 b5 b6 b7].
  destruct b0; [|done]. destruct b1; [|done]. destruct b2; [|done].
  destruct b3; [|done]. destruct b4; [done|]. destruct b5; [|done].
  destruct b6; [done|]. destruct b7; [done|]. by destruct Hc.
Qed.

Lemma plain_name_cons x :
  plain_name x → ∃ c t, x = String c t ∧ c ≠ "/"%char.
Proof.
  intros [[Hne _] Hs]. destruct x as [|c t]; [done|].
  exists c, t. split; [done|]. simpl in Hs.
  apply orb_false_elim in Hs as [Hc _]. by apply bool_decide_eq_false in Hc.
Qed.

Lemma of_str_str_anchor p :
  anchor p ∈ [""; "/"; "//"] → normal p →
  splitroot (str p) = anchor p.
Proof.
  intros Ha Hn. unfold str. destruct (parts p) as [|x ps] eqn:Hparts.
  - repeat (apply elem_of_cons in Ha as [-> | Ha]);
      [by rewrite decide_True by done| by rewrite decide_False by done..|].
    by apply elem_of_nil in Ha.
  - unfold normal in Hn. rewrite Hparts in Hn.
    apply Forall_cons in Hn as [Hx _].
    destruct (plain_name_cons x Hx) as (c & t & -> & Hc).
    assert (∃ t', String.concat "/" (String c t :: ps) = String c t')
      as [t' ->].
    { destruct ps; simpl; [by eexists|].
      change (String c t +:+ ?y) with (String c (t +:+ y)). by eexists. }
    destruct (splitroot_not_slash c t' Hc) as (H0 & H1 & H2).
    repeat (apply elem_of_cons in Ha as [-> | Ha]);
      [ change ("" +:+ ?y) with y; exact H0
      | change ("/" +:+ ?y) with (String "/" y); exact H1
      | change ("//" +:+ ?y) with (String "/" (String "/" y)); exact H2
      | ].
    by apply elem_of_nil in Ha.
Qed.

(** Reading the text of a parsed path gives the path back. *)
Lemma of_str_str s : of_str (str (of_str s)) = of_str s.
Proof.
  pose proof (splitroot_anchor s) as Ha.
  pose proof (of_str_normal s) as Hn.
  pose proof (of_str_str_parts (of_str s) Ha Hn) as Hparts.
  pose proof (of_str_str_anchor (of_str s) Ha Hn) as Hanchor.
  transitivity {| anchor := anchor (of_str s); parts := parts (of_str s) |};
    [|done].
  by rewrite <- Hanchor, <- Hparts.
Qed.

End pathlib_round_trip.

(** ** [scan_folder]: its errors, its success, its records *)

Lemma get_file_info_Raise_stat w path e :
  get_file_info w path = Raise e →
  ∃ n msg, e = OSError n msg ∧ (n ∉ ignored_errnos) ∧
           os_stat w (Pathlib.str path) = inl (StatOSError n msg).
Proof.
  intros Hg. pose proof (get_file_info_cases w path) as Hc.
  destruct (Path_is_file w path) as [b|e'] eqn:Hf.
  - destruct Hc as [r Hr]. congruence.
  - assert (e' = e) by congruence. subst e'.
    destruct (Path_is_file_Raise _ _ _ Hf) as (n & msg & -> & Hi & Hs).
    exists n, msg. split; [done|]. split; [|done].
    simpl in Hi. by apply bool_decide_eq_false in Hi.
Qed.

Lemma scan_files_Raise_stat w root files : ∀ res e,
  scan_files w root files res = Raise e →
  ∃ fname n msg, fname ∈ files ∧ is_lock_file fname = false ∧
    e = OSError n msg ∧ (n ∉ ignored_errnos) ∧
    os_stat w (scan_key root fname) = inl (StatOSError n msg).
Proof.
  induction files as [|f files IH]; intros res e Hscan; simpl in Hscan;
    [done|].
  destruct (is_lock_file f) eqn:Hlock.
  { destruct (IH _ _ Hscan) as (fn & n & msg & Hin & H).
    exists fn, n, msg. split; [by apply list_elem_of_further|done]. }
  destruct (get_file_info w (Pathlib.joinpath root f)) as [info|e'] eqn:Hg;
    simpl in Hscan.
  - destruct (IH _ _ Hscan) as (fn & n & msg & Hin & H).
    exists fn, n, msg. split; [by apply list_elem_of_further|done].
  - injection Hscan as ->.
    destruct (get_file_info_Raise_stat _ _ _ Hg) as (n & msg & He & Hn & Hs).
    exists f, n, msg. split; [apply list_elem_of_here|done].
Qed.

Lemma scan_walk_Raise_stat w walk : ∀ res e,
  scan_walk w walk res = Raise e →
  ∃ root dirs files fname n msg,
    (root, dirs, files) ∈ walk ∧ fname ∈ files ∧
    is_lock_file fname = false ∧
    e = OSError n msg ∧ (n ∉ ignored_errnos) ∧
    os_stat w (scan_key root fname) = inl (StatOSError n msg).
Proof.
  induction walk as [|[[root dirs] files] walk IH]; intros res e Hscan;
    simpl in Hscan; [done|].
  destruct (scan_files w root files res) as [res1|e'] eqn:H1;
    simpl in Hscan.
  - destruct (IH _ _ Hscan) as (r & d & fs & fn & n & msg & Hin & H).
    exists r, d, fs, fn, n, msg.
    split; [by apply list_elem_of_further|done].
  - injection Hscan as ->.
    destruct (scan_files_Raise_stat _ _ _ _ _ H1)
      as (fn & n & msg & Hin & H).
    exists root, dirs, files, fn, n, msg.
    split; [apply list_elem_of_here|done].
Qed.

(** X11.  The only errors a scan raises: its own [FileNotFoundError]
    for a root that does not exist, and the [OSError] of a [stat] the
    system refused, of the root or of a file [os.walk] reported that is
    not a lock file, with an errno that is not read as absence. *)
Theorem scan_folder_raises (w : World) (folder_path : string) (e : exn) :
  scan_folder w folder_path = Raise e →
  e = FileNotFoundError ("Path not found: " +:+ folder_path) ∨
  ∃ n msg path,
    e = OSError n msg ∧ (n ∉ ignored_errnos) ∧
    os_stat w path = inl (StatOSError n msg) ∧
    (path = Pathlib.str (Pathlib.of_str folder_path) ∨
     ∃ root fname,
       encountered w (Pathlib.str (Pathlib.of_str folder_path)) root fname ∧
       is_lock_file fname = false ∧ path = scan_key root fname).
Proof.
  unfold scan_folder.
  destruct (Path_exists w (Pathlib.of_str folder_path)) as [[]|e'] eqn:He;
    simpl.
  - intros Hscan. right.
    destruct (scan_walk_Raise_stat _ _ _ _ Hscan)
      as (r & d & fs & fn & n & msg & Hin & Hfn & Hl & -> & Hn & Hs).
    exists n, msg, (scan_key r fn). repeat (split; [done|]).
    right. exists r, fn. split; [by exists d, fs|done].
  - intros [= <-]. by left.
  - intros [= <-]. right. unfold Path_exists, Path_stat in He.
    destruct (os_stat w _) as [[n msg|msg]|s] eqn:Hs; simpl in He;
      [|done..].
    destruct (bool_decide _) eqn:Hi; [done|]. injection He as <-.
    apply bool_decide_eq_false in Hi.
    exists n, msg, (Pathlib.str (Pathlib.of_str folder_path)). auto.
Qed.

Lemma scan_folder_raises_witness :
  scan_folder demo_world "/vault" =
    Raise (OSError EACCES "[Errno 13] Permission denied: '/vault/key.pem'") ∧
  (OSError EACCES "[Errno 13] Permission denied: '/vault/key.pem'" =
     FileNotFoundError ("Path not found: " +:+ "/vault") ∨
   ∃ n msg path,
     OSError EACCES "[Errno 13] Permission denied: '/vault/key.pem'" =
       OSError n msg ∧ (n ∉ ignored_errnos) ∧
     os_stat demo_world path = inl (StatOSError n msg) ∧
     (path = Pathlib.str (Pathlib.of_str "/vault") ∨
      ∃ root fname,
        encountered demo_world (Pathlib.str (Pathlib.of_str "/vault"))
          root fname ∧
        is_lock_file fname = false ∧ path = scan_key root fname)).
Proof.
  assert (Hs : scan_folder demo_world "/vault" =
    Raise (OSError EACCES "[Errno 13] Permission denied: '/vault/key.pem'"))
    by (vm_compute; reflexivity).
  split; [exact Hs|].
  exact (scan_folder_raises demo_world "/vault" _ Hs).
Defined.

Lemma get_file_info_Ok_is_file w path :
  (∃ r, get_file_info w path = Ok r) ↔ (∃ b, Path_is_file w path = Ok b).
Proof.
  pose proof (get_file_info_cases w path) as Hc.
  destruct (Path_is_file w path) as [b|e].
  - split; eauto.
  - rewrite Hc. split; intros [? ?]; done.
Qed.

Lemma scan_files_Ok w root files : ∀ res,
  (∃ res', scan_files w root files res = Ok res') ↔
  ∀ fname, fname ∈ files → is_lock_file fname = false →
    ∃ b, Path_is_file w (Pathlib.joinpath root fname) = Ok b.
Proof.
  induction files as [|f files IH]; intros res; simpl.
  - split; [|by eauto]. intros _ fn Hin. by apply elem_of_nil in Hin.
  - destruct (is_lock_file f) eqn:Hlock.
    + rewrite IH. split; intros H fn Hin Hl.
      * apply elem_of_cons in Hin as [-> | Hin]; [congruence|auto].
      * apply H; [by apply list_elem_of_further|done].
    + destruct (get_file_info w (Pathlib.joinpath root f)) as [info|e] eqn:Hg;
        simpl.
      * rewrite IH. split; intros H fn Hin Hl.
        -- apply elem_of_cons in Hin as [-> | Hin]; [|auto].
           apply get_file_info_Ok_is_file. eauto.
        -- apply H; [by apply list_elem_of_further|done].
      * split; [by intros [? ?]|]. intros H.
        destruct (H f (list_elem_of_here _ _) Hlock) as [b Hb].
        assert (∃ r, get_file_info w (Pathlib.joinpath root f) = Ok r)
          as [r Hr] by (apply get_file_info_Ok_is_file; eauto).
        congruence.
Qed.

Lemma scan_walk_Ok w walk : ∀ res,
  (∃ res', scan_walk w walk res = Ok res') ↔
  ∀ root dirs files fname,
    (root, dirs, files) ∈ walk → fname ∈ files →
    is_lock_file fname = false →
    ∃ b, Path_is_file w (Pathlib.joinpath root fname) = Ok b.
Proof.
  induction walk as [|[[root dirs] files] walk IH]; intros res; simpl.
  - split; [|by eauto]. intros _ r d fs fn Hin. by apply elem_of_nil in Hin.
  - destruct (scan_files w root files res) as [res1|e] eqn:H1; simpl.
    + rewrite IH. split; intros H r d fs fn Hin Hfn Hl.
      * apply elem_of_cons in Hin as [[= -> -> ->] | Hin]; [|eauto].
        eapply (scan_files_Ok w root files res); eauto.
      * eapply H; [by apply list_elem_of_further|done..].
    + split; [by intros [? ?]|]. intros H.
      assert (∃ res', scan_files w root files res = Ok res') as [r Hr].
      { apply scan_files_Ok. intros fn Hfn Hl.
        eapply H; [apply list_elem_of_here|done..]. }
      congruence.
Qed.

(** X12.  A scan returns a dictionary exactly when the root exists and
    [is_file] raises for no file that [os.walk] reported and that is not
    a lock file. *)
Theorem scan_folder_returns (w : World) (folder_path : string) :
  (∃ m, scan_folder w folder_path = Ok m) ↔
  Path_exists w (Pathlib.of_str folder_path) = Ok true ∧
  ∀ root fname,
    encountered w (Pathlib.str (Pathlib.of_str folder_path)) root fname →
    is_lock_file fname = false →
    ∃ b, Path_is_file w (Pathlib.joinpath root fname) = Ok b.
Proof.
  unfold scan_folder, encountered.
  destruct (Path_exists w (Pathlib.of_str folder_path)) as [[]|e]; simpl.
  - rewrite scan_walk_Ok. split.
    + intros H. split; [done|]. intros r fn (d & fs & Hin & Hfn). eauto.
    + intros [_ H] r d fs fn Hin Hfn. eauto.
  - split; [by intros [? ?]|by intros [? _]].
  - split; [by intros [? ?]|by intros [? _]].
Qed.

Lemma scan_files_records w root files : ∀ res res',
  scan_files w root files res = Ok res' →
  records_of w res → records_of w res'.
Proof.
  induction files as [|f files IH]; intros res res' Hscan Hres;
    simpl in Hscan.
  - by injection Hscan as <-.
  - destruct (is_lock_file f); [by eapply IH|].
    destruct (get_file_info w (Pathlib.joinpath root f)) as [info|e] eqn:Hg;
      simpl in Hscan; [|done].
    eapply IH; [exact Hscan|].
    intros k r. rewrite get_setitem. case_decide as Hk; [|apply Hres].
    intros [= <-]. subst k. unfold Pathlib.joinpath in *.
    by rewrite of_str_str.
Qed.

Lemma scan_walk_records w walk : ∀ res res',
  scan_walk w walk res = Ok res' →
  records_of w res → records_of w res'.
Proof.
  induction walk as [|[[root dirs] files] walk IH]; intros res res' Hscan Hres;
    simpl in Hscan.
  - by injection Hscan as <-.
  - destruct (scan_files w root files res) as [res1|e] eqn:H1;
      simpl in Hscan; [|done].
    eapply IH; [exact Hscan|]. by eapply scan_files_records.
Qed.

Lemma scan_folder_records_of w folder_path m :
  scan_folder w folder_path = Ok m → records_of w m.
Proof.
  intros [_ Hwalk]%scan_folder_Ok.
  eapply scan_walk_records; [exact Hwalk|]. intros k r. done.
Qed.

(** X13.  Every record of a scan is the one [get_file_info] reports, in
    the same world, for the path its key spells. *)
Theorem scan_folder_records (w : World) (folder_path : string)
    (m : dict FileRecord) (k : string) (r : FileRecord) :
  scan_folder w folder_path = Ok m → get m k = Some r →
  get_file_info w (Pathlib.of_str k) = Ok r.
Proof.
  intros Hscan Hget. apply scan_folder_records_of in Hscan. by apply Hscan.
Qed.

Lemma scan_folder_records_witness :
  get_file_info demo_world (Pathlib.of_str "/data/a.txt") = Ok rec_a_txt.
Proof.
  apply (scan_folder_records demo_world "/data"
           [("/data/a.txt", rec_a_txt); ("/data/gone.txt", rec_gone_txt)]);
    vm_compute; reflexivity.
Defined.

Lemma get_file_info_record_shape w path r :
  get_file_info w path = Ok r → complete_record r ∨ failure_record r.
Proof.
  unfold get_file_info, complete_record, failure_record.
  destruct (Path_stat w path) as [s|e]; simpl.
  - unfold human_readable_size.
    destruct (size_loop _ _) as [sz|e]; simpl;
      destruct (Path_is_file w path) as [b|e']; simpl; intros [= <-]; simpl.
    + left. eauto 10.
    + right. eauto 10.
  - destruct (Path_is_file w path) as [b|e']; simpl; intros [= <-]; simpl.
    right. eauto 10.
Qed.

(** X14.  Every record of a scan has the four attributes and no
    [error], or an [error] and none of the four attributes. *)
Theorem scan_folder_record_shape (w : World) (folder_path : string)
    (m : dict FileRecord) (k : string) (r : FileRecord) :
  scan_folder w folder_path = Ok m → get m k = Some r →
  complete_record r ∨ failure_record r.
Proof.
  intros Hscan Hget. apply scan_folder_records_of in Hscan.
  eapply get_file_info_record_shape. by apply Hscan.
Qed.

Lemma scan_folder_record_shape_witness :
  complete_record rec_a_txt ∨ failure_record rec_a_txt.
Proof.
  apply (scan_folder_record_shape demo_world "/data"
           [("/data/a.txt", rec_a_txt); ("/data/gone.txt", rec_gone_txt)]
           "/data/a.txt");
    vm_compute; reflexivity.
Defined.

(** ** [human_readable_size], continued *)

Lemma string_app_assoc (a b c : string) : (a +:+ b) +:+ c = a +:+ b +:+ c.
Proof.
  induction a as [|x a IH]; [done|].
  change (String x ((a +:+ b) +:+ c) = String x (a +:+ b +:+ c)).
  by rewrite IH.
Qed.

(** X15.  Below 1 KB the size is written exactly: the number of bytes,
    [.00] and the unit [B]. *)
Theorem human_readable_size_bytes (n : Z) :
  (0 <= n < 1024)%Z →
  human_readable_size (Some n) = Ok (Some (decimal n +:+ ".00 B")).
Proof.
  intros Hn. unfold human_readable_size. rewrite size_loop_cons.
  cbn [lt_1024]. rewrite (proj2 (Z.ltb_lt _ _)) by lia.
  cbn [format_2f]. rewrite too_large_for_float_small by done.
  rewrite round53_small by lia.
  unfold format_2f_float. rewrite (proj2 (Z.ltb_ge _ _)) by lia.
  unfold round_half_even_div.
  rewrite Z.pow_0_r, Z.mod_1_r, Z.div_1_r, Z.abs_eq by lia.
  change (2 * 0 <? 1)%Z with true. cbn iota.
  unfold two_decimals.
  replace (100 * n / 100)%Z with n by (rewrite Z.mul_comm, Z.div_mul; lia).
  replace ((100 * n) mod 100)%Z with 0%Z
    by (rewrite Z.mul_comm, Z.mod_mul; lia).
  replace ((100 * n) mod 10)%Z with 0%Z
    by (replace (100 * n)%Z with ((10 * n) * 10)%Z by lia;
        rewrite Z.mod_mul; lia).
  change ("" +:+ ?x) with x. cbn [mbind result_bind].
  change (decimal (0 / 10)) with "0". change (decimal 0) with "0".
  by rewrite !string_app_assoc.
Qed.

Lemma human_readable_size_bytes_witness :
  human_readable_size (Some 100%Z) = Ok (Some (decimal 100 +:+ ".00 B")).
Proof. apply human_readable_size_bytes. lia. Defined.

(** A byte count below [2^1024] is rendered: no [OverflowError]. *)
Lemma human_readable_size_Ok (n : Z) :
  (0 <= n < 2 ^ 1024)%Z → ∃ s, human_readable_size (Some n) = Ok (Some s).
Proof.
  intros Hn. unfold human_readable_size. rewrite size_loop_cons.
  cbn [lt_1024]. destruct (n <? 1024)%Z eqn:Hlt.
  - apply Z.ltb_lt in Hlt. cbn [format_2f].
    rewrite too_large_for_float_small by lia. by eexists.
  - apply Z.ltb_ge in Hlt. cbn [truediv_1024].
    rewrite too_large_for_float_false by lia.
    cbn [mbind result_bind].
    destruct (size_loop_float n ["KB"; "MB"; "GB"; "TB"] 1)
      as (i & _ & Heq & _); [lia|simpl; lia|simpl; lia|].
    change (10 * 1)%Z with 10%Z in Heq. rewrite Heq. by eexists.
Qed.
(** X16.  When [stat] succeeds, with a size below [2^1024], the record
    has the attributes of that [stat], [is_file] says whether it is a
    regular file, and there is no [error]. *)
Theorem get_file_info_stat_succeeds (w : World) (path : Pathlib.Path)
    (s : stat_result) :
  os_stat w (Pathlib.str path) = inr s →
  (0 <= st_size s < 2 ^ 1024)%Z →
  ∃ sz, human_readable_size (Some (st_size s)) = Ok (Some sz) ∧
    get_file_info w path =
      Ok {| name := Pathlib.name path;
            relpath := Pathlib.str path;
            size := Some sz;
            created := Some (timestamp w (st_ctime s));
            modified := Some (timestamp w (st_mtime s));
            accessed := Some (timestamp w (st_atime s));
            is_file := S_ISREG (st_mode s);
            error := None |}.
Proof.
  intros Hs Hsize. destruct (human_readable_size_Ok _ Hsize) as [sz Hsz].
  exists sz. split; [done|].
  unfold get_file_info, Path_is_file, Path_stat. rewrite Hs. simpl.
  by rewrite Hsz.
Qed.

Lemma get_file_info_stat_succeeds_witness :
  ∃ sz, human_readable_size (Some (st_size regular_100)) = Ok (Some sz) ∧
    get_file_info demo_world (Pathlib.of_str "/data/a.txt") =
      Ok {| name := "a.txt";
            relpath := "/data/a.txt";
            size := Some sz;
            created := Some (timestamp demo_world (st_ctime regular_100));
            modified := Some (timestamp demo_world (st_mtime regular_100));
            accessed := Some (timestamp demo_world (st_atime regular_100));
            is_file := S_ISREG (st_mode regular_100);
            error := None |}.
Proof.
  apply (get_file_info_stat_succeeds demo_world
           (Pathlib.of_str "/data/a.txt") regular_100).
  - vm_compute. reflexivity.
  - split; [done|]. apply Z.ltb_lt. vm_compute. reflexivity.
Defined.

(** ** [timestamp] *)

Lemma string_app_cons c a b : String c a +:+ b = String c (a +:+ b).
Proof. reflexivity. Qed.

Lemma string_app_nil b : "" +:+ b = b.
Proof. reflexivity. Qed.

Lemma forallb_below (P : nat → bool) (N : nat) :
  forallb P (seq 0 N) = true → ∀ k, k < N → P k = true.
Proof.
  intros H k Hk. rewrite forallb_forall in H. apply H, in_seq. lia.
Qed.

Lemma zero_pad_2 (n : Z) :
  (0 <= n < 100)%Z →
  zero_pad 2 n = String (digit (n / 10)) (String (digit (n mod 10)) "").
Proof.
  intros Hn.
  pose (P := λ k : nat,
    let n := Z.of_nat k in
    String.eqb (zero_pad 2 n)
      (String (digit (n / 10)) (String (digit (n mod 10)) ""))).
  assert (H : P (Z.to_nat n) = true).
  { apply (forallb_below P 100); [vm_compute; reflexivity|lia]. }
  unfold P in H. rewrite Z2Nat.id in H by lia. by apply String.eqb_eq.
Qed.

Lemma decimal_4 (n : Z) :
  (1000 <= n < 10000)%Z →
  decimal n =
    String (digit (n / 1000)) (String (digit (n / 100 mod 10))
      (String (digit (n / 10 mod 10)) (String (digit (n mod 10)) ""))).
Proof.
  intros Hn.
  pose (P := λ k : nat,
    let n := (1000 + Z.of_nat k)%Z in
    String.eqb (decimal n)
      (String (digit (n / 1000)) (String (digit (n / 100 mod 10))
        (String (digit (n / 10 mod 10)) (String (digit (n mod 10)) ""))))).
  assert (H : P (Z.to_nat (n - 1000)) = true).
  { apply (forallb_below P (Z.to_nat 9000)); [vm_compute; reflexivity|lia]. }
  unfold P in H. cbn zeta in H.
  replace (1000 + Z.of_nat (Z.to_nat (n - 1000)))%Z with n in H by lia.
  by apply String.eqb_eq.
Qed.

Lemma digit_inj (a b : Z) :
  (0 <= a < 10)%Z → (0 <= b < 10)%Z → digit a = digit b → a = b.
Proof.
  intros Ha Hb H. apply (f_equal nat_of_ascii) in H. unfold digit in H.
  rewrite !nat_ascii_embedding in H by lia. lia.
Qed.
Lemma strftime_digits (dt : datetime) :
  valid_datetime dt →
  strftime dt =
    String (digit (year dt / 1000)) (String (digit (year dt / 100 mod 10))
    (String (digit (year dt / 10 mod 10)) (String (digit (year dt mod 10))
    (String "-" (String (digit (month dt / 10)) (String (digit (month dt mod 10))
    (String "-" (String (digit (day dt / 10)) (String (digit (day dt mod 10))
    (String " " (String (digit (hour dt / 10)) (String (digit (hour dt mod 10))
    (String ":" (String (digit (minute dt / 10))
    (String (digit (minute dt mod 10))
    (String ":" (String (digit (second dt / 10))
    (String (digit (second dt mod 10)) "")))))))))))))))))).
Proof.
  intros (Hy & Hm & Hd & Hh & Hmi & Hs). unfold strftime.
  rewrite decimal_4, !zero_pad_2 by lia.
  by rewrite !string_app_cons, !string_app_nil.
Qed.

Lemma two_digits_inj (a b : Z) :
  (0 <= a < 100)%Z → (0 <= b < 100)%Z →
  digit (a / 10) = digit (b / 10) → digit (a mod 10) = digit (b mod 10) →
  a = b.
Proof.
  intros Ha Hb H1 H2.
  apply digit_inj in H1; [|Z.to_euclidean_division_equations; lia..].
  apply digit_inj in H2; [|Z.to_euclidean_division_equations; lia..].
  Z.to_euclidean_division_equations; lia.
Qed.

Lemma four_digits_inj (a b : Z) :
  (0 <= a < 10000)%Z → (0 <= b < 10000)%Z →
  digit (a / 1000) = digit (b / 1000) →
  digit (a / 100 mod 10) = digit (b / 100 mod 10) →
  digit (a / 10 mod 10) = digit (b / 10 mod 10) →
  digit (a mod 10) = digit (b mod 10) →
  a = b.
Proof.
  intros Ha Hb H1 H2 H3 H4.
  apply digit_inj in H1; [|Z.to_euclidean_division_equations; lia..].
  apply digit_inj in H2; [|Z.to_euclidean_division_equations; lia..].
  apply digit_inj in H3; [|Z.to_euclidean_division_equations; lia..].
  apply digit_inj in H4; [|Z.to_euclidean_division_equations; lia..].
  Z.to_euclidean_division_equations; lia.
Qed.

Lemma strftime_inj (d1 d2 : datetime) :
  valid_datetime d1 → valid_datetime d2 →
  strftime d1 = strftime d2 → d1 = d2.
Proof.
  intros V1 V2 E. rewrite !strftime_digits in E by done.
  destruct V1 as (Hy1 & Hm1 & Hd1 & Hh1 & Hmi1 & Hs1).
  destruct V2 as (Hy2 & Hm2 & Hd2 & Hh2 & Hmi2 & Hs2).
  injection E as Y1 Y2 Y3 Y4 M1 M2 D1 D2 H1 H2 MI1 MI2 S1 S2.
  destruct d1, d2; simpl in *. f_equal.
  - apply four_digits_inj; (done || lia).
  - apply two_digits_inj; (done || lia).
  - apply two_digits_inj; (done || lia).
  - apply two_digits_inj; (done || lia).
  - apply two_digits_inj; (done || lia).
  - apply two_digits_inj; (done || lia).
Qed.

(** X17.  The text of an instant tells its second: two instants whose
    local date and time are valid (with a year of four digits) get the
    same text only when these are the same, and the text is never the
    empty one that stands for a failed conversion. *)
Theorem timestamp_inj (w : World) (t1 t2 : instant) (d1 d2 : datetime) :
  fromtimestamp w t1 = Some d1 → fromtimestamp w t2 = Some d2 →
  valid_datetime d1 → valid_datetime d2 →
  timestamp w t1 ≠ "" ∧ (timestamp w t1 = timestamp w t2 → d1 = d2).
Proof.
  intros F1 F2 V1 V2. unfold timestamp. rewrite F1, F2. split.
  - by rewrite strftime_digits.
  - by apply strftime_inj.
Qed.

Lemma timestamp_inj_witness :
  timestamp demo_world 0%Z ≠ "" ∧
  (timestamp demo_world 0%Z = timestamp demo_world 1%Z →
   new_year_2024 = new_year_2024).
Proof.
  apply (timestamp_inj demo_world 0%Z 1%Z new_year_2024 new_year_2024);
    try reflexivity; unfold valid_datetime; simpl; lia.
Defined.

(** ** JSON: what is written is read back *)

Section json_round_trip.
Import JsonDecoder.

Lemma unicode_escape_control (c : ascii) :
  (N_of_ascii c < 32)%N →
  unicode_escape "0" "0"
    (SHA1.hex_digit (Z.of_N (N_of_ascii c / 16)))
    (SHA1.hex_digit (Z.of_N (N_of_ascii c mod 16))) = Got c.
Proof.
  intros Hc.
  pose (P := λ k : nat,
    let c := ascii_of_nat k in
    match unicode_escape "0" "0"
            (SHA1.hex_digit (Z.of_N (N_of_ascii c / 16)))
            (SHA1.hex_digit (Z.of_N (N_of_ascii c mod 16))) with
    | Got c' => bool_decide (c' = c)
    | _ => false
    end).
  assert (H : P (nat_of_ascii c) = true).
  { apply (forallb_below P 32); [vm_compute; reflexivity|].
    unfold nat_of_ascii. lia. }
  unfold P in H. rewrite ascii_nat_embedding in H. simpl in H.
  destruct (unicode_escape _ _ _ _) as [c'| |]; [|done..].
  apply bool_decide_eq_true in H. by subst.
Qed.

Lemma scan_string_escape_char (c : ascii) (x : string) :
  scan_string (Json.escape_char c +:+ x) = prepend c (scan_string x).
Proof.
  unfold Json.escape_char.
  repeat case_decide; subst;
    try match goal with
        | H : N_of_ascii c = _ |- _ =>
            apply (f_equal ascii_of_N) in H;
            rewrite ascii_N_embedding in H; simpl in H; subst c
        end;
    try reflexivity.
  - (* a control character written as \u00XX *)
    change ("\u00" +:+ ?h) with
      (String Json.backslash (String "u" (String "0" (String "0" h)))).
    unfold Json.hex2. rewrite !string_app_cons, string_app_nil.
    change (scan_string (String Json.backslash (String "u"
              (String "0" (String "0" (String ?h1 (String ?h2 x)))))))
      with (bind (unicode_escape "0" "0" h1 h2)
                 (λ c', prepend c' (scan_string x))).
    by rewrite unicode_escape_control.
  - (* any other character stands for itself *)
    rewrite string_app_cons, string_app_nil. cbn [scan_string].
    rewrite !decide_False by done.
    by rewrite (proj2 (N.ltb_ge _ _)) by lia.
Qed.

Lemma scan_string_escape (s rest : string) :
  scan_string (Json.escape s +:+ Json.quote +:+ rest) = Got (s, rest).
Proof.
  induction s as [|c s IH].
  - reflexivity.
  - cbn [Json.escape]. rewrite string_app_assoc, scan_string_escape_char.
    by rewrite IH.
Qed.
Lemma spaces_S (k : nat) : Json.spaces (S k) = String " " (Json.spaces k).
Proof. by destruct k. Qed.

Lemma skip_whitespace_spaces (k : nat) (x : string) :
  skip_whitespace (Json.spaces k +:+ x) = skip_whitespace x.
Proof.
  induction k as [|k IH]; [done|].
  by rewrite spaces_S, string_app_cons.
Qed.

Lemma skip_whitespace_inner (k : nat) (x : string) :
  skip_whitespace (Json.newline +:+ Json.spaces k +:+ x) = skip_whitespace x.
Proof.
  change (Json.newline +:+ ?y) with (String "010" y).
  cbn [skip_whitespace]. change (is_whitespace "010") with true. cbn iota.
  apply skip_whitespace_spaces.
Qed.

(** A value's text starts with a character that is no whitespace. *)
Lemma skip_whitespace_encode (level : nat) (v : Json.value) (x : string) :
  skip_whitespace (Json.encode level v +:+ x) = Json.encode level v +:+ x.
Proof.
  destruct v as [|[]|s|[|f fs]]; reflexivity.
Qed.

Lemma skip_whitespace_encode_str (k x : string) :
  skip_whitespace (Json.encode_str k +:+ x) = Json.encode_str k +:+ x.
Proof. reflexivity. Qed.

Lemma string_app_nil_r (a : string) : a +:+ "" = a.
Proof.
  induction a as [|c a IH]; [done|]. by rewrite string_app_cons, IH.
Qed.

Lemma string_length_app (a b : string) :
  String.length (a +:+ b) = String.length a + String.length b.
Proof.
  induction a as [|c a IH]; [done|].
  rewrite string_app_cons. simpl. by rewrite IH.
Qed.

Lemma setitem_fresh {V} (d : dict V) (k : string) (v : V) :
  k ∉ keys d → setitem d k v = d ++ [(k, v)].
Proof.
  unfold keys. induction d as [|[k0 v0] d IH]; simpl; [done|].
  intros [Hne Hd]%not_elem_of_cons.
  rewrite decide_False by done. by rewrite IH.
Qed.

Section members.
Context (level : nat).

Let member (kv : string * Json.value) : string :=
  Json.encode_str kv.1 +:+ ": " +:+ Json.encode (level + 2) kv.2.
Let inner : string := Json.newline +:+ Json.spaces (level + 2).

Lemma encode_Obj_cons (f : string * Json.value) fs :
  Json.encode level (Json.Obj (f :: fs)) =
    "{" +:+ inner +:+ String.concat ("," +:+ inner) (map member (f :: fs)) +:+
    Json.newline +:+ Json.spaces level +:+ "}".
Proof. reflexivity. Qed.

Lemma concat_members_cons f g fs :
  String.concat ("," +:+ inner) (map member (f :: g :: fs)) =
    member f +:+ ("," +:+ inner) +:+
    String.concat ("," +:+ inner) (map member (g :: fs)).
Proof. reflexivity. Qed.

Lemma members_length (fs : list (string * Json.value)) (x : string) :
  (List.length fs ≤
   String.length (String.concat ("," +:+ inner) (map member fs) +:+ x))%nat.
Proof.
  induction fs as [|f fs IH]; [simpl; lia|].
  destruct fs as [|g fs].
  - cbn [map String.concat List.length]. unfold member, Json.encode_str.
    rewrite !string_length_app. simpl. lia.
  - rewrite concat_members_cons, !string_app_assoc.
    rewrite string_length_app. unfold member at 1. unfold Json.encode_str.
    rewrite !string_length_app.
    rewrite string_length_app in IH. simpl in *. lia.
Qed.

(** Reading one pair. *)
Lemma parse_members_pair pv (n : nat) (acc : dict Json.value)
    (k vt : string) (v : Json.value) (t : string) :
  skip_whitespace vt = vt → pv vt = Got (v, t) →
  parse_members pv (S n) acc (Json.encode_str k +:+ ": " +:+ vt) =
    match skip_whitespace t with
    | String "}" s5 => Got (Json.Obj (setitem acc k v), s5)
    | String "," s5 =>
        parse_members pv n (setitem acc k v) (skip_whitespace s5)
    | _ => Malformed
    end.
Proof.
  intros Hws Hpv. unfold Json.encode_str.
  rewrite !string_app_assoc.
  change (Json.quote +:+ ?y) with (String "034" y) at 1.
  cbn [parse_members]. rewrite scan_string_escape. cbn [bind].
  change (": " +:+ vt) with (String ":" (String " " vt)).
  change (skip_whitespace (String ":" (String " " vt)))
    with (String ":" (String " " vt)).
  cbn iota.
  change (skip_whitespace (String " " vt)) with (skip_whitespace vt).
  rewrite Hws, Hpv. reflexivity.
Qed.

Lemma skip_whitespace_members fs (y : string) :
  fs ≠ [] →
  ∃ m, String.concat ("," +:+ inner) (map member fs) +:+ y = String "034" m ∧
       skip_whitespace (String "034" m) = String "034" m.
Proof.
  intros Hfs. destruct fs as [|f [|g fs]]; [done|..]; by eexists.
Qed.

(** Reading the pairs of an object the encoder wrote. *)
Lemma parse_members_encode pv : ∀ fs acc (n : nat) rest,
  fs ≠ [] → (List.length fs ≤ n)%nat →
  (∀ kv x, kv ∈ fs →
     pv (Json.encode (level + 2) kv.2 +:+ x) = Got (kv.2, x)) →
  NoDup (keys acc ++ keys fs) →
  parse_members pv n acc
    (String.concat ("," +:+ inner) (map member fs) +:+
     Json.newline +:+ Json.spaces level +:+ "}" +:+ rest)
  = Got (Json.Obj (acc ++ fs), rest).
Proof.
  induction fs as [|[k v] fs IH]; [done|].
  intros acc n rest _ Hn Hpv Hnd.
  destruct n as [|n]; [simpl in Hn; lia|].
  assert (Hk : k ∉ keys acc).
  { apply NoDup_app in Hnd as (_ & Hdis & _). intros Hin.
    apply (Hdis _ Hin). unfold keys. simpl. apply list_elem_of_here. }
  assert (Hv : ∀ x, pv (Json.encode (level + 2) v +:+ x) = Got (v, x)).
  { intros x. apply (Hpv (k, v)). apply list_elem_of_here. }
  destruct fs as [|g fs].
  - cbn [map String.concat]. unfold member. cbn [fst snd].
    rewrite !string_app_assoc.
    rewrite (parse_members_pair pv n acc k _ v _
               (skip_whitespace_encode _ _ _) (Hv _)).
    rewrite skip_whitespace_inner.
    change (skip_whitespace ("}" +:+ rest)) with (String "}" rest).
    cbn iota. by rewrite setitem_fresh.
  - rewrite concat_members_cons. unfold member at 1. cbn [fst snd].
    rewrite !string_app_assoc.
    rewrite (parse_members_pair pv n acc k _ v _
               (skip_whitespace_encode _ _ _) (Hv _)).
    change ("," +:+ ?y) with (String "," y).
    change (skip_whitespace (String "," ?y)) with (String "," y).
    cbn iota. unfold inner at 1. rewrite !string_app_assoc.
    rewrite skip_whitespace_inner.
    destruct (skip_whitespace_members (g :: fs)
                (Json.newline +:+ Json.spaces level +:+ "}" +:+ rest))
      as (m & Hm & Hws); [done|].
    rewrite Hm, Hws, <- Hm.
    rewrite setitem_fresh by done.
    rewrite IH.
    + by rewrite <- app_assoc.
    + done.
    + simpl in *. lia.
    + intros kv x Hin. apply Hpv. by apply list_elem_of_further.
    + unfold keys in *. rewrite fmap_app. simpl in *.
      by rewrite <- app_assoc.
Qed.

End members.

Lemma nesting_Obj fs d kv :
  (nesting (Json.Obj fs) ≤ S d)%nat → kv ∈ fs → (nesting kv.2 ≤ d)%nat.
Proof.
  cbn [nesting]. intros H Hin. apply le_S_n in H.
  apply list_max_le in H. rewrite List.Forall_forall in H.
  apply H, in_map_iff. exists kv. split; [done|].
  by apply list_elem_of_In.
Qed.

Lemma distinct_keys_Obj fs kv :
  distinct_keys (Json.Obj fs) → kv ∈ fs → distinct_keys kv.2.
Proof.
  cbn [distinct_keys]. intros [_ H] Hin.
  induction fs as [|f fs IH]; [by apply elem_of_nil in Hin|].
  simpl in H. destruct H as [Hf Hfs].
  apply elem_of_cons in Hin as [-> | Hin]; auto.
Qed.

(** The decoder reads back a value the encoder wrote, and stops after
    it. *)
Lemma parse_value_encode (d : nat) : ∀ v level rest,
  (nesting v ≤ d)%nat → distinct_keys v →
  parse_value d (Json.encode level v +:+ rest) = Got (v, rest).
Proof.
  induction d as [|d IH]; intros v level rest Hd Hk.
  { destruct v; simpl in Hd; lia. }
  destruct v as [|[]|s|[|f fs]]; try reflexivity.
  - unfold Json.encode, Json.encode_str. rewrite !string_app_assoc.
    change (Json.quote +:+ ?y) with (String "034" y) at 1.
    cbn [parse_value]. rewrite decide_True by done.
    by rewrite scan_string_escape.
  - rewrite encode_Obj_cons, !string_app_assoc.
    change ("{" +:+ ?y) with (String "{" y).
    cbn [parse_value].
    rewrite decide_False by done. rewrite decide_True by done.
    rewrite skip_whitespace_inner.
    destruct (skip_whitespace_members level (f :: fs)
                (Json.newline +:+ Json.spaces level +:+ "}" +:+ rest))
      as (m & Hm & Hws); [done|].
    rewrite Hm, Hws. cbn iota. rewrite <- Hm.
    apply parse_members_encode.
    + done.
    + apply members_length.
    + intros kv x Hin. apply IH.
      * by eapply nesting_Obj.
      * by eapply distinct_keys_Obj.
    + by destruct Hk.
Qed.
Lemma universal_newlines_cons (c : ascii) (s : string) :
  c ≠ "013"%char →
  universal_newlines (String c s) = String c (universal_newlines s).
Proof.
  intros Hc. destruct c as [b0 b1 b2 b3 b4 b5 b6 b7].
  destruct b0; [|done]. destruct b1; [done|]. destruct b2; [|done].
  destruct b3; [|done]. destruct b4; [done|]. destruct b5; [done|].
  destruct b6; [done|]. destruct b7; [done|]. by destruct Hc.
Qed.

Lemma universal_newlines_no_cr (s : string) :
  "013"%char ∉ list_ascii_of_string s → universal_newlines s = s.
Proof.
  induction s as [|c s IH]; [done|]. simpl list_ascii_of_string.
  intros [Hc Hs]%not_elem_of_cons.
  rewrite universal_newlines_cons by done. by rewrite IH.
Qed.

Lemma escape_char_no_cr (c : ascii) :
  "013"%char ∉ list_ascii_of_string (Json.escape_char c).
Proof.
  assert (Hhex : ∀ d, (0 <= d < 16)%Z → "013"%char ≠ SHA1.hex_digit d).
  { intros d Hd E. pose proof (hex_digit_is_hex d Hd) as Hin.
    rewrite <- E in Hin. unfold is_hex_digit in Hin. simpl in Hin.
    repeat (apply elem_of_cons in Hin as [Hin | Hin]; [done|]).
    by apply elem_of_nil in Hin. }
  assert (Hb : (N_of_ascii c < 256)%N) by apply N_ascii_bounded.
  unfold Json.escape_char.
  repeat case_decide;
    try (simpl; intros Hin;
         repeat (apply elem_of_cons in Hin as [Hin | Hin]; [done|]);
         by apply elem_of_nil in Hin).
  - unfold Json.hex2.
    assert (Ha : (0 <= Z.of_N (N_of_ascii c / 16) < 16)%Z).
    { split; [apply N2Z.is_nonneg|]. apply (N2Z.inj_lt _ 16).
      apply N.Div0.div_lt_upper_bound. lia. }
    assert (Hm : (0 <= Z.of_N (N_of_ascii c mod 16) < 16)%Z).
    { split; [apply N2Z.is_nonneg|]. apply (N2Z.inj_lt _ 16).
      by apply N.mod_lt. }
    revert Ha Hm.
    generalize (Z.of_N (N_of_ascii c / 16)) (Z.of_N (N_of_ascii c mod 16)).
    intros a m Ha Hm. simpl. intros Hin.
    repeat (apply elem_of_cons in Hin as [Hin | Hin]; [done|]).
    apply elem_of_cons in Hin as [Hin | Hin]; [by apply Hhex in Hin|].
    apply elem_of_cons in Hin as [Hin | Hin]; [by apply Hhex in Hin|].
    by apply elem_of_nil in Hin.
  - simpl. intros Hin. apply elem_of_cons in Hin as [Hin | Hin];
      [|by apply elem_of_nil in Hin].
    subst c.
    match goal with H : N_of_ascii _ ≠ 13%N |- _ => by apply H end.
Qed.

Lemma escape_no_cr (s : string) :
  "013"%char ∉ list_ascii_of_string (Json.escape s).
Proof.
  induction s as [|c s IH]; simpl; [apply not_elem_of_nil|].
  rewrite list_ascii_of_string_app, elem_of_app.
  intros [H | H]; [by apply (escape_char_no_cr c)|done].
Qed.

Lemma encode_str_no_cr (s : string) :
  "013"%char ∉ list_ascii_of_string (Json.encode_str s).
Proof.
  unfold Json.encode_str.
  rewrite !list_ascii_of_string_app, !elem_of_app. simpl.
  intros [H | [H | H]]; [| by apply (escape_no_cr s) |];
    (apply elem_of_cons in H as [H | H]; [done|by apply elem_of_nil in H]).
Qed.

Lemma spaces_no_cr (k : nat) :
  "013"%char ∉ list_ascii_of_string (Json.spaces k).
Proof.
  induction k as [|k IH]; [apply not_elem_of_nil|].
  rewrite spaces_S. simpl. by apply not_elem_of_cons.
Qed.

Lemma members_no_cr (level : nat) (l : list (string * Json.value)) :
  (∀ kv, kv ∈ l →
     "013"%char ∉ list_ascii_of_string (Json.encode (level + 2) kv.2)) →
  "013"%char ∉ list_ascii_of_string
    (String.concat ("," +:+ Json.newline +:+ Json.spaces (level + 2))
       (map (λ kv, Json.encode_str kv.1 +:+ ": " +:+
                   Json.encode (level + 2) kv.2) l)).
Proof.
  induction l as [|g l IHl]; intros Hall; [apply not_elem_of_nil|].
  assert (Hg : "013"%char ∉ list_ascii_of_string
            (Json.encode_str g.1 +:+ ": " +:+ Json.encode (level + 2) g.2)).
  { rewrite !list_ascii_of_string_app, !elem_of_app.
    intros [H | [H | H]].
    - by apply encode_str_no_cr in H.
    - simpl in H. repeat (apply elem_of_cons in H as [H | H]; [done|]).
      by apply elem_of_nil in H.
    - revert H. apply Hall. apply list_elem_of_here. }
  destruct l as [|h l]; [done|].
  rewrite (concat_members_cons level g h l).
  rewrite list_ascii_of_string_app, elem_of_app.
  intros [H | H]; [done|]. revert H.
  rewrite list_ascii_of_string_app, elem_of_app.
  intros [H | H].
  - rewrite !list_ascii_of_string_app, !elem_of_app in H.
    destruct H as [H | [H | H]]; [| |by apply spaces_no_cr in H];
      simpl in H; (apply elem_of_cons in H as [H | H]; [done|]);
      by apply elem_of_nil in H.
  - revert H. apply IHl. intros kv Hin. apply Hall.
    by apply list_elem_of_further.
Qed.

Lemma encode_no_cr (d : nat) : ∀ v level,
  (nesting v ≤ d)%nat →
  "013"%char ∉ list_ascii_of_string (Json.encode level v).
Proof.
  induction d as [|d IH]; intros v level Hd.
  { destruct v; simpl in Hd; lia. }
  assert (Hlit : ∀ s : string,
    bool_decide ("013"%char ∈ list_ascii_of_string s) = false →
    "013"%char ∉ list_ascii_of_string s)
    by (intros s H; by apply bool_decide_eq_false in H).
  destruct v as [|[]|s|[|f fs]]; try (by apply Hlit).
  - apply encode_str_no_cr.
  - rewrite encode_Obj_cons.
    rewrite !list_ascii_of_string_app, !elem_of_app.
    intros [H | [[H | H] | [H | [H | [H | H]]]]];
      try (revert H; by apply Hlit);
      try (by apply spaces_no_cr in H).
    revert H. apply members_no_cr. intros kv Hin.
    apply IH. by eapply nesting_Obj.
Qed.

(** X18.  What [json.dump] writes, [json.load] reads back: for every
    value whose objects have no key twice and are nested no deeper than
    the model follows, also through the newline translation of a text
    file. *)
Theorem loads_dumps (v : Json.value) :
  (nesting v ≤ max_depth)%nat → distinct_keys v →
  universal_newlines (Json.dumps v) = Json.dumps v ∧
  loads (Json.dumps v) = Got v.
Proof.
  intros Hd Hk. split.
  - apply universal_newlines_no_cr. by eapply encode_no_cr.
  - unfold loads, Json.dumps.
    rewrite <- (string_app_nil_r (Json.encode 0 v)).
    rewrite skip_whitespace_encode, parse_value_encode by done.
    reflexivity.
Qed.
End json_round_trip.

(** ** The baseline store: what is saved is loaded *)

Lemma FileRecord_of_to_json (r : FileRecord) :
  FileRecord_of_json (FileRecord_to_json r) = Some r.
Proof.
  destruct r as [n p [sz|] [c|] [m|] [a|] isf [e|]]; reflexivity.
Qed.

Lemma records_of_to_json (data : dict FileRecord) :
  records_of_json (map (λ kv, (kv.1, FileRecord_to_json kv.2)) data)
  = Some data.
Proof.
  induction data as [|[k r] data IH]; [done|].
  cbn [map records_of_json fst snd].
  rewrite FileRecord_of_to_json. cbn [mbind option_bind].
  rewrite IH. reflexivity.
Qed.

Lemma nesting_FileRecord (r : FileRecord) :
  JsonDecoder.nesting (FileRecord_to_json r) = 2.
Proof.
  destruct r as [n p [sz|] [c|] [m|] [a|] isf [e|]]; reflexivity.
Qed.

Lemma distinct_keys_FileRecord (r : FileRecord) :
  JsonDecoder.distinct_keys (FileRecord_to_json r).
Proof.
  destruct r as [n p sz c m a isf [e|]]; simpl;
    (split; [apply (bool_decide_unpack _); vm_compute; exact I|]);
    destruct sz, c, m, a; simpl; tauto.
Qed.

Lemma nesting_baseline_json (path_str now : string) (data : dict FileRecord) :
  (JsonDecoder.nesting (baseline_json path_str now data)
   ≤ JsonDecoder.max_depth)%nat.
Proof.
  assert (H : (list_max (map (λ kv : string * Json.value,
                               JsonDecoder.nesting kv.2)
                 (map (λ kv, (kv.1, FileRecord_to_json kv.2)) data)) ≤ 2)%nat).
  { apply list_max_le, List.Forall_forall. intros x Hx.
    apply in_map_iff in Hx as (kv & <- & Hkv).
    apply in_map_iff in Hkv as (kv' & <- & _). cbn [snd].
    by rewrite nesting_FileRecord. }
  unfold baseline_json, JsonDecoder.max_depth.
  cbn [JsonDecoder.nesting map list_max snd].
  revert H. generalize (list_max (map (λ kv : string * Json.value,
                                         JsonDecoder.nesting kv.2)
              (map (λ kv, (kv.1, FileRecord_to_json kv.2)) data))).
  intros x Hx. unfold list_max. cbn [fold_right]. lia.
Qed.

Lemma distinct_keys_baseline_json (path_str now : string)
    (data : dict FileRecord) :
  NoDup (keys data) →
  JsonDecoder.distinct_keys (baseline_json path_str now data).
Proof.
  intros Hnd. unfold baseline_json. cbn [JsonDecoder.distinct_keys].
  split; [apply (bool_decide_unpack _); vm_compute; exact I|].
  cbn [fold_right snd JsonDecoder.distinct_keys].
  repeat split; try done.
  - unfold keys in *. rewrite <- list_fmap_compose.
    erewrite list_fmap_ext; [exact Hnd|]. by intros i [k r].
  - clear Hnd. induction data as [|[k r] data IH]; [done|].
    cbn [map fold_right snd]. split; [apply distinct_keys_FileRecord|done].
Qed.

(** The text a save writes is read back as the record it wrote. *)
Lemma loads_baseline_json (path_str now : string) (data : dict FileRecord) :
  NoDup (keys data) →
  JsonDecoder.loads
    (universal_newlines (Json.dumps (baseline_json path_str now data)))
  = JsonDecoder.Got (baseline_json path_str now data).
Proof.
  intros Hnd.
  pose proof (nesting_baseline_json path_str now data) as Hd.
  pose proof (distinct_keys_baseline_json path_str now data Hnd) as Hk.
  rewrite universal_newlines_no_cr by (by eapply encode_no_cr).
  unfold JsonDecoder.loads, Json.dumps.
  rewrite <- (string_app_nil_r (Json.encode 0 _)).
  rewrite skip_whitespace_encode, parse_value_encode by done.
  reflexivity.
Qed.

Lemma save_baseline_for_disk (now path_str : string) (data : dict FileRecord)
    (disk : Disk) :
  (save_baseline_for AllWritten now path_str data disk).2 =
    <[baseline_file path_str :=
        Json.dumps (baseline_json path_str now data)]> disk.
Proof.
  unfold save_baseline_for, io_bind, open_w, write, io_ret. simpl.
  fold (baseline_file path_str).
  rewrite lookup_insert_eq. simpl. by rewrite insert_insert_eq.
Qed.

Lemma load_baseline_for_saved (path_str now : string)
    (data : dict FileRecord) (disk : Disk) :
  NoDup (keys data) →
  load_baseline_for AllRead path_str
    (<[baseline_file path_str :=
         Json.dumps (baseline_json path_str now data)]> disk)
  = Returns (baseline_json path_str now data).
Proof.
  intros Hnd. unfold load_baseline_for. cbn zeta.
  fold (baseline_file path_str). rewrite lookup_insert_eq.
  by rewrite loads_baseline_json.
Qed.

(** X19.  A baseline saved without error is loaded as it was saved:
    the folder, the time of the save and every record, whatever the
    file names and the disk held before (the dictionary's keys are
    distinct, as a dictionary's are). *)
Theorem save_then_load (now path_str : string) (data : dict FileRecord)
    (disk : Disk) :
  NoDup (keys data) →
  load_baseline_for AllRead path_str
    (save_baseline_for AllWritten now path_str data disk).2
  = Returns (baseline_json path_str now data).
Proof.
  intros Hnd. rewrite save_baseline_for_disk.
  by apply load_baseline_for_saved.
Qed.

Lemma save_then_load_witness :
  load_baseline_for AllRead "/data"
    (save_baseline_for AllWritten "2024-01-02T03:04:05.000006" "/data"
       snap_2024 ∅).2
  = Returns (baseline_json "/data" "2024-01-02T03:04:05.000006"
                     snap_2024).
Proof.
  apply save_then_load. apply (bool_decide_unpack _). vm_compute. exact I.
Defined.
Lemma loads_dumps_witness :
  universal_newlines (Json.dumps (baseline_json "/data" "x" snap_2024))
    = Json.dumps (baseline_json "/data" "x" snap_2024) ∧
  JsonDecoder.loads (Json.dumps (baseline_json "/data" "x" snap_2024))
    = JsonDecoder.Got (baseline_json "/data" "x" snap_2024).
Proof.
  apply loads_dumps.
  - apply nesting_baseline_json.
  - apply distinct_keys_baseline_json.
    apply (bool_decide_unpack _). vm_compute. exact I.
Defined.

Lemma list_ascii_of_string_inj (a b : string) :
  list_ascii_of_string a = list_ascii_of_string b → a = b.
Proof.
  intros H. apply (f_equal string_of_list_ascii) in H.
  by rewrite !string_of_list_ascii_of_string in H.
Qed.

Lemma baseline_file_inj (a b : string) :
  baseline_file a = baseline_file b → safe_name_hash a = safe_name_hash b.
Proof.
  unfold baseline_file, BASE_DIR. intros H.
  rewrite !string_app_cons, !string_app_nil in H.
  injection H as H. apply (f_equal list_ascii_of_string) in H.
  rewrite !list_ascii_of_string_app in H. apply app_inv_tail in H.
  by apply list_ascii_of_string_inj.
Qed.

Lemma save_baseline_for_other (io : io_outcome) (now path_str : string)
    (data : dict FileRecord) (disk : Disk) (fp : string) :
  fp ≠ baseline_file path_str →
  (save_baseline_for io now path_str data disk).2 !! fp = disk !! fp.
Proof.
  intros Hfp. unfold save_baseline_for, io_bind, open_w, write, io_ret.
  fold (baseline_file path_str).
  destruct io; simpl; by rewrite ?lookup_insert_ne by done.
Qed.

(** X20.  A save, also one that fails, leaves the baseline of every
    folder with another key as it was: loading it gives what it gave
    before. *)
Theorem save_keeps_other_baselines (io : io_outcome) (rd : read_outcome)
    (now saved other : string) (data : dict FileRecord) (disk : Disk) :
  safe_name_hash saved ≠ safe_name_hash other →
  load_baseline_for rd other
    (save_baseline_for io now saved data disk).2
  = load_baseline_for rd other disk.
Proof.
  intros Hne. unfold load_baseline_for. cbn zeta.
  fold (baseline_file other).
  rewrite save_baseline_for_other; [done|].
  intros H. by apply Hne, eq_sym, baseline_file_inj.
Qed.

Lemma save_keeps_other_baselines_witness :
  load_baseline_for AllRead "/data"
    (save_baseline_for (WriteFails 12 disk_full) "2024-02-01T00:00:00.000000"
       "/vault" snap_later disk_2024).2
  = load_baseline_for AllRead "/data" disk_2024.
Proof.
  apply save_keeps_other_baselines. vm_compute. discriminate.
Defined.

(** ** Create a baseline, then compare *)

Lemma NoDup_keys_setitem {V} (d : dict V) (k : string) (v : V) :
  NoDup (keys d) → NoDup (keys (setitem d k v)).
Proof.
  unfold keys. induction d as [|[k0 v0] d IH]; simpl.
  - intros _. apply NoDup_singleton.
  - intros [Hk0 Hd]%NoDup_cons.
    destruct (decide (k0 = k)) as [->|Hne]; simpl.
    + by apply NoDup_cons.
    + apply NoDup_cons. split; [|by apply IH].
      intros Hin. apply (keys_setitem d k v k0) in Hin as [Hin | ->]; done.
Qed.

Lemma scan_files_NoDup w root files : ∀ res res',
  scan_files w root files res = Ok res' →
  NoDup (keys res) → NoDup (keys res').
Proof.
  induction files as [|f files IH]; intros res res' Hscan Hres;
    simpl in Hscan.
  - by injection Hscan as <-.
  - destruct (is_lock_file f); [by eapply IH|].
    destruct (get_file_info w (Pathlib.joinpath root f)) as [info|e];
      simpl in Hscan; [|done].
    eapply IH; [exact Hscan|]. by apply NoDup_keys_setitem.
Qed.

Lemma scan_walk_NoDup w walk : ∀ res res',
  scan_walk w walk res = Ok res' →
  NoDup (keys res) → NoDup (keys res').
Proof.
  induction walk as [|[[root dirs] files] walk IH]; intros res res' Hscan Hres;
    simpl in Hscan.
  - by injection Hscan as <-.
  - destruct (scan_files w root files res) as [res1|e] eqn:H1;
      simpl in Hscan; [|done].
    eapply IH; [exact Hscan|]. by eapply scan_files_NoDup.
Qed.

Lemma scan_folder_NoDup w folder_path m :
  scan_folder w folder_path = Ok m → NoDup (keys m).
Proof.
  intros [_ Hwalk]%scan_folder_Ok.
  eapply scan_walk_NoDup; [exact Hwalk|]. apply NoDup_nil_2.
Qed.

Lemma getitem_files (a b c : Json.value) :
  getitem [("folder", a); ("created_at", b); ("files", c)] "files" = Ok c.
Proof. reflexivity. Qed.

(** X21.  The stored baseline stands for the scan it was made from:
    after "Create / Update Baseline" has succeeded, "Scan & Compare"
    (when the file is read without error) shows the comparison of that
    scan with the current one, and their numbers of files. *)
Theorem baseline_persists (w1 w2 : World) (io : io_outcome)
    (now folder_input fp : string) (total : nat) (disk disk' : Disk)
    (curr : dict FileRecord) :
  on_create_baseline w1 io now folder_input disk
    = (BaselineSaved fp total, disk') →
  scan_folder w2 folder_input = Ok curr →
  ∃ old comp,
    scan_folder w1 folder_input = Ok old ∧
    compare old curr = Ok comp ∧
    on_compare w2 AllRead folder_input disk' =
      Summary (length old) (length curr)
              (length (added comp)) (length (deleted comp)) comp.
Proof.
  unfold on_create_baseline. intros Hcreate Hcurr.
  destruct (scan_folder w1 folder_input) as [old|e] eqn:Hold; [|done].
  pose proof (scan_folder_NoDup _ _ _ Hold) as Hnd.
  assert (Hio : io = AllWritten).
  { destruct io; [done|..];
      unfold save_baseline_for, io_bind, open_w, write in Hcreate;
      simpl in Hcreate; done. }
  subst io.
  pose proof (save_baseline_for_disk now folder_input old disk) as Hdisk.
  destruct (save_baseline_for AllWritten now folder_input old disk)
    as [[fp'|e] d'] eqn:Hsave; [|done].
  injection Hcreate as -> _ ->. simpl in Hdisk. subst disk'.
  exists old. eexists. split; [done|]. split; [apply compare_eq|].
  unfold on_compare. rewrite load_baseline_for_saved by done.
  unfold baseline_json. cbn [truthy negb]. rewrite Hcurr.
  rewrite getitem_files.
  rewrite records_of_to_json, compare_eq. reflexivity.
Qed.

Lemma baseline_persists_witness :
  ∃ old comp,
    scan_folder demo_world "/data" = Ok old ∧
    compare old [("/data/a.txt", rec_a_txt); ("/data/gone.txt", rec_gone_txt)]
      = Ok comp ∧
    on_compare demo_world AllRead "/data"
      (save_baseline_for AllWritten "2024-01-02T03:04:05.000006" "/data"
         [("/data/a.txt", rec_a_txt); ("/data/gone.txt", rec_gone_txt)] ∅).2 =
      Summary (length old) 2 (length (added comp)) (length (deleted comp)) comp.
Proof.
  apply (baseline_persists demo_world demo_world AllWritten
           "2024-01-02T03:04:05.000006" "/data"
           (baseline_file "/data") 2 ∅).
  - vm_compute. reflexivity.
  - vm_compute. reflexivity.
Defined.
